(** * Pricing engine of [invoice_service.py]: a shallow embedding

    The Python class [InvoiceService] computes the payable total of an
    invoice.  The embedding below follows the source method by method.

    - A Python [float] is an IEEE 754 binary64 number: Rocq's primitive
      [float], whose operations are the hardware ones and are specified by
      [SpecFloat] through the standard library's [FloatAxioms].
    - A Python [int] is unbounded: [Z].
    - A Python [str] is a [string]; a character stands for the code point of
      the same number (U+0000 to U+00FF).
    - A Python [dict] is a [gmap], a Python [set] a [gset].
    - A mutable list that a method appends to (the problems of the validator,
      the warnings of the discount calculator) is passed in and returned.
    - An exception ends the computation: [result] is the error monad.

    The definitions come first: the embedding of the source, then the words
    of the specification it is compared with.  The lemmas follow, then the
    claims C1 to C10; further properties of the code, X1 to X18, close the
    file. *)

From Stdlib Require Import ZArith String Ascii List Bool Lia Floats Permutation.
From stdpp Require Import base option list gmap strings.

Set Warnings "-inexact-float".

Import ListNotations.
Local Open Scope string_scope.
Local Open Scope list_scope.

(** * The source

    ** Exceptions *)

Inductive exn : Type :=
| ValueError (msg : string)
| OverflowError
| AttributeError.

Inductive result (A : Type) : Type :=
| Ok (a : A)
| Raise (e : exn).

Arguments Ok {A} a.
Arguments Raise {A} e.

#[global] Instance result_bind : MBind result :=
  fun A B (k : A -> result B) (r : result A) =>
    match r with
    | Ok a => k a
    | Raise e => Raise e
    end.

(** ** Python primitives used by the service *)

#[global] Instance float_inhabited : Inhabited float := populate 0%float.

Module Py.

(** [bool(s)] of a string: the empty string is falsy. *)
Definition truthy (s : string) : bool :=
  match s with
  | EmptyString => false
  | String _ _ => true
  end.

(** [str.isspace] on one character, for the code points below 256:
    TAB to CR, FS to US, space, NEL and the no-break space. *)
Definition isspace (c : ascii) : bool :=
  let n := N_of_ascii c in
  ((9 <=? n) && (n <=? 13) || (28 <=? n) && (n <=? 32)
   || (n =? 133) || (n =? 160))%N.

Fixpoint lstrip (s : string) : string :=
  match s with
  | EmptyString => EmptyString
  | String c s' => if isspace c then lstrip s' else s
  end.

Fixpoint rstrip (s : string) : string :=
  match s with
  | EmptyString => EmptyString
  | String c s' =>
      match rstrip s' with
      | EmptyString => if isspace c then EmptyString else String c EmptyString
      | r => String c r
      end
  end.

(** [s.strip()] *)
Definition strip (s : string) : string := rstrip (lstrip s).

(** [sep.join(l)] *)
Fixpoint join (sep : string) (l : list string) : string :=
  match l with
  | [] => ""
  | [x] => x
  | x :: rest => x +:+ sep +:+ join sep rest
  end.

(** [a in b] for strings: [a] occurs in [b]. *)
Definition contains (b a : string) : Prop :=
  exists pre post : string, b = pre +:+ a +:+ post.

(** The conversion of an [int] operand of a float operation
    ([PyLong_AsDouble]): the nearest binary64 number, ties to even;
    an [int] that rounds beyond the largest finite number raises
    [OverflowError]. *)
Definition float_of_int (n : Z) : result float :=
  match binary_normalize prec emax n 0 false with
  | S754_infinity _ => Raise OverflowError
  | f => Ok (SF2Prim f)
  end.

(** [max(a, b)] of two floats: the first argument, unless the second is
    greater. *)
Definition max (a b : float) : float :=
  if (a <? b)%float then b else a.

End Py.

(** ** Data model *)

Record LineItem : Type := mkLineItem {
  sku : string;
  category : string;
  unit_price : float;
  qty : Z;
  fragile : bool
}.

Record Invoice : Type := mkInvoice {
  invoice_id : string;
  customer_id : string;
  country : string;
  membership : string;
  coupon : option string;
  items : list LineItem
}.

(** ** The service

    The tables are class constants; the thresholds, the fees and the flat
    discount are Python [int]s that only meet floats, so that they stand here
    as the floats they convert to exactly. *)

Module InvoiceService.

Definition VALID_CATEGORIES : gset string :=
  {[ "book"; "food"; "electronics"; "other" ]}.

Definition SHIPPING_RULES : gmap string (list (float * float)) :=
  list_to_map
    [ ("TH", [(500, 60)]);
      ("JP", [(4000, 600)]);
      ("US", [(100, 15); (300, 8)]);
      ("OTHER", [(200, 25)]) ]%float.

Definition TAX_RATE : gmap string float :=
  list_to_map
    [ ("TH", 0.07); ("JP", 0.10); ("US", 0.08); ("OTHER", 0.05) ]%float.

Definition MEMBERSHIP_DISCOUNT : gmap string float :=
  list_to_map [ ("gold", 0.03); ("platinum", 0.05) ]%float.

Definition _coupon_rate : gmap string float :=
  list_to_map
    [ ("WELCOME10", 0.10); ("VIP20", 0.20); ("STUDENT5", 0.05) ]%float.

(** *** Validation *)

Definition _validate_item (it : LineItem) (problems : list string)
  : list string :=
  let problems :=
    if Py.truthy (sku it) then problems
    else problems ++ ["Item sku is missing"] in
  let problems :=
    if (qty it <=? 0)%Z then problems ++ ["Invalid qty for " +:+ sku it]
    else problems in
  let problems :=
    if (unit_price it <? 0)%float
    then problems ++ ["Invalid price for " +:+ sku it]
    else problems in
  let problems :=
    if bool_decide (category it ∈ VALID_CATEGORIES) then problems
    else problems ++ ["Unknown category for " +:+ sku it] in
  problems.

Definition _validate (inv : option Invoice) : list string :=
  let problems := [] in
  match inv with
  | None => ["Invoice is missing"]
  | Some inv =>
      let problems :=
        if Py.truthy (invoice_id inv) then problems
        else problems ++ ["Missing invoice_id"] in
      let problems :=
        if Py.truthy (customer_id inv) then problems
        else problems ++ ["Missing customer_id"] in
      let problems :=
        match items inv with
        | [] => problems ++ ["Invoice must contain items"]
        | _ :: _ => problems
        end in
      fold_left (fun problems it => _validate_item it problems)
        (items inv) problems
  end.

(** *** Calculation helpers *)

(** The loop of [_calculate_subtotal], from the current accumulators. *)
Fixpoint _calculate_subtotal_from (items : list LineItem)
    (subtotal fragile_fee : float) : result (float * float) :=
  match items with
  | [] => Ok (subtotal, fragile_fee)
  | it :: rest =>
      q ← Py.float_of_int (qty it);
      let subtotal := (subtotal + unit_price it * q)%float in
      if fragile it then
        q' ← Py.float_of_int (qty it);
        let fragile_fee := (fragile_fee + 5 * q')%float in
        _calculate_subtotal_from rest subtotal fragile_fee
      else _calculate_subtotal_from rest subtotal fragile_fee
  end.

Definition _calculate_subtotal (items : list LineItem)
  : result (float * float) :=
  _calculate_subtotal_from items 0%float 0%float.

(** The loop of [_calculate_shipping]: the first rule whose limit is above
    the subtotal returns. *)
Fixpoint _calculate_shipping_scan (rules : list (float * float))
    (subtotal : float) : float :=
  match rules with
  | [] => 0%float
  | (limit, fee) :: rest =>
      if (subtotal <? limit)%float then fee
      else _calculate_shipping_scan rest subtotal
  end.

Definition _calculate_shipping (country : string) (subtotal : float)
  : float :=
  let rules :=
    default (SHIPPING_RULES !!! "OTHER") (SHIPPING_RULES !! country) in
  _calculate_shipping_scan rules subtotal.

Definition _calculate_discount (inv : Invoice) (subtotal : float)
    (warnings : list string) : float * list string :=
  let discount := 0%float in
  let discount :=
    match MEMBERSHIP_DISCOUNT !! membership inv with
    | Some rate => (discount + subtotal * rate)%float
    | None =>
        if (3000 <? subtotal)%float then (discount + 20)%float
        else discount
    end in
  match coupon inv with
  | Some c =>
      if Py.truthy c then
        let code := Py.strip c in
        match _coupon_rate !! code with
        | Some rate => ((discount + subtotal * rate)%float, warnings)
        | None => (discount, warnings ++ ["Unknown coupon"])
        end
      else (discount, warnings)
  | None => (discount, warnings)
  end.

Definition _calculate_tax (country : string) (taxable_amount : float)
  : float :=
  let rate := default (TAX_RATE !!! "OTHER") (TAX_RATE !! country) in
  (taxable_amount * rate)%float.

(** *** Main API *)

Definition compute_total (inv : option Invoice)
  : result (float * list string) :=
  let warnings : list string := [] in
  let problems := _validate inv in
  match problems with
  | _ :: _ => Raise (ValueError (Py.join "; " problems))
  | [] =>
      match inv with
      | None => Raise AttributeError
      | Some inv =>
          '(subtotal, fragile_fee) ← _calculate_subtotal (items inv);
          let shipping := _calculate_shipping (country inv) subtotal in
          let '(discount, warnings) :=
            _calculate_discount inv subtotal warnings in
          let tax :=
            _calculate_tax (country inv) (subtotal - discount)%float in
          let total :=
            (subtotal + shipping + fragile_fee + tax - discount)%float in
          let total := Py.max total 0%float in
          let warnings :=
            if (10000 <? subtotal)%float
               && negb (bool_decide
                          (is_Some (MEMBERSHIP_DISCOUNT !! membership inv)))
            then warnings ++ ["Consider membership upgrade"]
            else warnings in
          Ok (total, warnings)
      end
  end.

End InvoiceService.

Import InvoiceService.

(** * The words of the specification

    Declarative readings of the components, written after the specification
    and not after the code; the lemmas compare the code with them. *)

(** ** The validator *)

Module Spec.

(** The problems of one line item, each check on its own. *)
Definition item_problems (it : LineItem) : list string :=
  (if Py.truthy (sku it) then [] else ["Item sku is missing"])
  ++ (if (qty it <=? 0)%Z then ["Invalid qty for " +:+ sku it] else [])
  ++ (if (unit_price it <? 0)%float
      then ["Invalid price for " +:+ sku it] else [])
  ++ (if bool_decide (category it ∈ VALID_CATEGORIES) then []
      else ["Unknown category for " +:+ sku it]).

(** Every problem of an invoice that is present, in detection order. *)
Definition invoice_problems (i : Invoice) : list string :=
  (if Py.truthy (invoice_id i) then [] else ["Missing invoice_id"])
  ++ (if Py.truthy (customer_id i) then [] else ["Missing customer_id"])
  ++ (match items i with
      | [] => ["Invoice must contain items"]
      | _ :: _ => []
      end)
  ++ concat (map item_problems (items i)).

Definition problems (inv : option Invoice) : list string :=
  match inv with
  | None => ["Invoice is missing"]
  | Some i => invoice_problems i
  end.

End Spec.

(** What the validator checks, as properties of the invoice. *)

Record item_ok (it : LineItem) : Prop := {
  item_sku : Py.truthy (sku it) = true;
  item_qty : (0 < qty it)%Z;
  item_price : (unit_price it <? 0)%float = false;
  item_category : category it ∈ VALID_CATEGORIES
}.

Record invoice_ok (i : Invoice) : Prop := {
  ok_invoice_id : Py.truthy (invoice_id i) = true;
  ok_customer_id : Py.truthy (customer_id i) = true;
  ok_nonempty : items i <> [];
  ok_items : Forall item_ok (items i)
}.

(** ** The aggregator: sums over the items *)

Module Agg.

(** An [int] that a float operation accepts. *)
Definition convertible (n : Z) : Prop :=
  exists q : float, Py.float_of_int n = Ok q.

(** The float a convertible quantity becomes. *)
Definition qty_float (it : LineItem) : float :=
  SF2Prim (binary_normalize prec emax (qty it) 0 false).

Definition line_amount (it : LineItem) : float :=
  (unit_price it * qty_float it)%float.

Definition fragile_amount (it : LineItem) : float :=
  (5 * qty_float it)%float.

(** The sum of a list of floats, from [0.0], left to right. *)
Definition sum_left (l : list float) : float :=
  fold_left PrimFloat.add l 0%float.

Definition subtotal (l : list LineItem) : float :=
  sum_left (map line_amount l).

Definition fragile_fee (l : list LineItem) : float :=
  sum_left (map fragile_amount (filter (fun it => fragile it = true) l)).

End Agg.

(** ** The orchestrator

    The local variables of [compute_total], as the helpers of the service
    compute them from the invoice and from what the aggregator returned. *)

Module Run.

Definition shipping (i : Invoice) (subtotal : float) : float :=
  _calculate_shipping (country i) subtotal.

Definition discount (i : Invoice) (subtotal : float) : float :=
  (_calculate_discount i subtotal []).1.

Definition coupon_warnings (i : Invoice) (subtotal : float) : list string :=
  (_calculate_discount i subtotal []).2.

Definition tax (i : Invoice) (subtotal : float) : float :=
  _calculate_tax (country i) (subtotal - discount i subtotal)%float.

Definition total (i : Invoice) (subtotal fragile_fee : float) : float :=
  (subtotal + shipping i subtotal + fragile_fee + tax i subtotal
   - discount i subtotal)%float.

Definition upgrade_warning (i : Invoice) (subtotal : float) : list string :=
  if (10000 <? subtotal)%float
     && negb (bool_decide (is_Some (MEMBERSHIP_DISCOUNT !! membership i)))
  then ["Consider membership upgrade"]
  else [].

End Run.

(** ** Shipping: the first applicable breakpoint *)

Module Shipping.

(** The list configured for a country, the one of "OTHER" when the country
    is not in the table. *)
Definition configured_rules (country : string) : list (float * float) :=
  match SHIPPING_RULES !! country with
  | Some rules => rules
  | None => default [] (SHIPPING_RULES !! "OTHER")
  end.

(** A rule applies when its threshold strictly exceeds the subtotal. *)
Definition applies (subtotal : float) (rule : float * float) : bool :=
  (subtotal <? rule.1)%float.

(** The fee of the first rule that applies, [0.0] without one. *)
Definition first_fee (rules : list (float * float)) (subtotal : float)
  : float :=
  match List.find (applies subtotal) rules with
  | Some rule => rule.2
  | None => 0%float
  end.

End Shipping.

(** ** Discounts: two contributions *)

Module Discount.

(** Rule 1: the rate of a recognized tier, otherwise the flat 20 of a
    large order. *)
Definition membership_part (membership : string) (subtotal : float)
  : option float :=
  match MEMBERSHIP_DISCOUNT !! membership with
  | Some rate => Some (subtotal * rate)%float
  | None => if (3000 <? subtotal)%float then Some 20%float else None
  end.

(** Rule 2: the rate of a recognized coupon, trimmed. *)
Definition coupon_part (coupon : option string) (subtotal : float)
  : option float :=
  match coupon with
  | Some c =>
      if Py.truthy c then
        match _coupon_rate !! Py.strip c with
        | Some rate => Some (subtotal * rate)%float
        | None => None
        end
      else None
  | None => None
  end.

(** A contribution adds to the running discount; no contribution leaves
    it as it is. *)
Definition plus (discount : float) (part : option float) : float :=
  match part with
  | Some x => (discount + x)%float
  | None => discount
  end.

(** The invoice with its coupon removed. *)
Definition without_coupon (i : Invoice) : Invoice :=
  mkInvoice (invoice_id i) (customer_id i) (country i) (membership i)
    None (items i).

(** [s.isspace()]: not empty, and whitespace only. *)
Fixpoint all_space (s : string) : bool :=
  match s with
  | EmptyString => true
  | String c s' => Py.isspace c && all_space s'
  end.

Definition isspace (s : string) : bool := Py.truthy s && all_space s.

End Discount.

(** ** Tax: a flat rate by country *)

Module Tax.

(** The rate configured for a country, the one of "OTHER" when the country
    is not in the table. *)
Definition rate (country : string) : float :=
  match TAX_RATE !! country with
  | Some rate => rate
  | None => default 0%float (TAX_RATE !! "OTHER")
  end.

End Tax.

(** ** Magnitudes of floats

    Predicates on the specification of a float, [spec_float], in which the
    bound of the discount is stated. *)

(** [x] is a zero, or a positive finite number that is at most [2 ^ k]. *)
Definition below_pow2 (k : Z) (x : spec_float) : Prop :=
  match x with
  | S754_zero _ => True
  | S754_finite false m e => (Z.pos m <= 2 ^ (k - e) /\ e <= 971)%Z
  | _ => False
  end.

(** [x] is a zero, or a positive finite number below [2 ^ k]. *)
Definition strictly_below_pow2 (k : Z) (x : spec_float) : Prop :=
  match x with
  | S754_zero _ => True
  | S754_finite false m e => (Z.pos m < 2 ^ (k - e) /\ e <= 971)%Z
  | _ => False
  end.

(** NaN, a zero, or a positive number. *)
Definition not_below_zero (x : spec_float) : Prop :=
  SFltb x (S754_zero false) = false.

(** NaN, plus infinity, or a positive finite number that is at least
    [2 ^ j]. *)
Definition above_pow2 (j : Z) (x : spec_float) : Prop :=
  match x with
  | S754_nan => True
  | S754_infinity false => True
  | S754_finite false m e => (2 ^ (j - e) <= Z.pos m)%Z
  | _ => False
  end.

(** * Concrete invoices *)

Module Scenario.

Definition book (price : float) (n : Z) (frag : bool) : LineItem :=
  mkLineItem "B1" "book" price n frag.

(** The scenarios of the specification. *)
Definition A : Invoice :=
  mkInvoice "INV-A" "CUST-1" "TH" "none" None [book 500 1 false].

Definition B : Invoice :=
  mkInvoice "INV-B" "CUST-1" "TH" "none" None [book 100 2 true].

Definition C : Invoice :=
  mkInvoice "INV-C" "CUST-1" "US" "gold" (Some "WELCOME10")
    [book 4000 1 false].

Definition D : Invoice :=
  mkInvoice "INV-D" "CUST-1" "OTHER" "none" (Some "BOGUS")
    [book 1000 1 false].

Definition E : Invoice :=
  mkInvoice "INV-E" "CUST-1" "TH" "none" None [book 10 0 false].

(** A gold member orders ten units at 1e308 apiece: the subtotal overflows
    to infinity. *)
Definition overflowing : Invoice :=
  mkInvoice "INV-F" "CUST-1" "US" "gold" None [book 1e308 10 false].

(** A quantity beyond the range of floats, with an unknown coupon. *)
Definition unconvertible : Invoice :=
  mkInvoice "INV-G" "CUST-1" "US" "none" (Some "BOGUS")
    [book 1 (2 ^ 1024) false].

(** A large order without membership and with an unknown coupon. *)
Definition both_warnings : Invoice :=
  mkInvoice "INV-H" "CUST-1" "JP" "none" (Some "BOGUS")
    [book 20000 1 false].

(** Coupons that are empty, and blank. *)
Definition empty_coupon : Invoice :=
  mkInvoice "INV-I" "CUST-1" "TH" "none" (Some "") [book 500 1 false].

Definition blank_coupon : Invoice :=
  mkInvoice "INV-J" "CUST-1" "TH" "none" (Some "  ") [book 500 1 false].

(** The same three items in two orders. *)
Definition big_first : list LineItem :=
  [book 1e16 1 false; book 1 1 false; book 1 1 false].

Definition big_last : list LineItem :=
  [book 1 1 false; book 1 1 false; book 1e16 1 false].

End Scenario.

(** * Variations of an invoice

    An invoice with one field replaced, and what the pricing reads of a line
    item; the further properties compare the results of such invoices. *)

Module Vary.

Definition with_country (i : Invoice) (c : string) : Invoice :=
  mkInvoice (invoice_id i) (customer_id i) c (membership i) (coupon i)
    (items i).

Definition with_membership (i : Invoice) (m : string) : Invoice :=
  mkInvoice (invoice_id i) (customer_id i) (country i) m (coupon i)
    (items i).

Definition with_coupon (i : Invoice) (c : option string) : Invoice :=
  mkInvoice (invoice_id i) (customer_id i) (country i) (membership i) c
    (items i).

(** The fields of a line item that the calculators read. *)
Definition priced (it : LineItem) : float * Z * bool :=
  (unit_price it, qty it, fragile it).

End Vary.

(** * Lemmas *)

(** ** Strings *)

Section Strings.

Lemma append_cons (ch : ascii) (a b : string) :
  String ch a +:+ b = String ch (a +:+ b).
Proof. reflexivity. Qed.

Lemma append_empty_l (a : string) : "" +:+ a = a.
Proof. reflexivity. Qed.

Lemma append_assoc (a b c : string) : (a +:+ b) +:+ c = a +:+ b +:+ c.
Proof.
  induction a as [|ch a IH]; [reflexivity|].
  now rewrite !append_cons, IH.
Qed.

Lemma append_empty_r (a : string) : a +:+ "" = a.
Proof.
  induction a as [|ch a IH]; [reflexivity|].
  now rewrite append_cons, IH.
Qed.

Lemma contains_refl (a : string) : Py.contains a a.
Proof.
  exists "", "". now rewrite append_empty_l, append_empty_r.
Qed.

Lemma contains_prepend (p b a : string) :
  Py.contains b a -> Py.contains (p +:+ b) a.
Proof.
  intros (pre & post & ->). exists (p +:+ pre), post.
  now rewrite append_assoc.
Qed.

Lemma contains_append (b q a : string) :
  Py.contains b a -> Py.contains (b +:+ q) a.
Proof.
  intros (pre & post & ->). exists pre, (post +:+ q).
  now rewrite !append_assoc.
Qed.

(** A joined message contains each of its parts. *)
Lemma join_contains (sep p : string) (l : list string) :
  In p l -> Py.contains (Py.join sep l) p.
Proof.
  induction l as [|x l IH]; intros Hin; [destruct Hin|].
  destruct Hin as [->|Hin].
  - destruct l as [|y l]; simpl; [apply contains_refl|].
    apply contains_append, contains_refl.
  - destruct l as [|y l]; [destruct Hin|].
    change (Py.join sep (x :: y :: l))
      with (x +:+ sep +:+ Py.join sep (y :: l)).
    now apply contains_prepend, contains_prepend, IH.
Qed.

End Strings.

(** ** The validator collects *)

Section Validation.

Lemma _validate_item_app (it : LineItem) (ps : list string) :
  _validate_item it ps = ps ++ Spec.item_problems it.
Proof.
  unfold _validate_item, Spec.item_problems.
  destruct (Py.truthy (sku it)), (qty it <=? 0)%Z,
    (unit_price it <? 0)%float,
    (bool_decide (category it ∈ VALID_CATEGORIES));
    simpl; rewrite <- ?app_assoc; simpl; rewrite ?app_nil_r; reflexivity.
Qed.

Lemma _validate_items_app (l : list LineItem) (ps : list string) :
  fold_left (fun problems it => _validate_item it problems) l ps
  = ps ++ concat (map Spec.item_problems l).
Proof.
  revert ps. induction l as [|it l IH]; intros ps; simpl.
  - now rewrite app_nil_r.
  - now rewrite IH, _validate_item_app, <- app_assoc.
Qed.

Lemma _validate_collects (inv : option Invoice) :
  _validate inv = Spec.problems inv.
Proof.
  destruct inv as [i|]; [|reflexivity].
  unfold _validate, Spec.problems, Spec.invoice_problems.
  rewrite _validate_items_app.
  destruct (Py.truthy (invoice_id i)), (Py.truthy (customer_id i)),
    (items i); reflexivity.
Qed.

Lemma item_problems_nil (it : LineItem) :
  Spec.item_problems it = [] <-> item_ok it.
Proof.
  unfold Spec.item_problems. split.
  - destruct (Py.truthy (sku it)) eqn:Hs; [|discriminate].
    destruct (qty it <=? 0)%Z eqn:Hq; [discriminate|].
    destruct (unit_price it <? 0)%float eqn:Hp; [discriminate|].
    destruct (bool_decide (category it ∈ VALID_CATEGORIES)) eqn:Hc;
      [|discriminate].
    intros _. split; auto.
    + now apply Z.leb_gt.
    + now apply bool_decide_eq_true in Hc.
  - intros [Hs Hq Hp Hc]. rewrite Hs, Hp.
    apply Z.leb_gt in Hq. rewrite Hq.
    now rewrite (bool_decide_eq_true_2 _ Hc).
Qed.

Lemma concat_item_problems_nil (l : list LineItem) :
  concat (map Spec.item_problems l) = [] <-> Forall item_ok l.
Proof.
  induction l as [|it l IH]; simpl.
  - split; [constructor | reflexivity].
  - split.
    + intros H. apply app_eq_nil in H as [H1 H2].
      constructor; [now apply item_problems_nil | now apply IH].
    + intros H. inversion H as [|? ? H1 H2]; subst.
      apply item_problems_nil in H1. apply IH in H2.
      now rewrite H1, H2.
Qed.

Lemma _validate_nil (i : Invoice) :
  _validate (Some i) = [] <-> invoice_ok i.
Proof.
  rewrite _validate_collects. unfold Spec.problems, Spec.invoice_problems.
  split.
  - destruct (Py.truthy (invoice_id i)) eqn:H1; [|discriminate].
    destruct (Py.truthy (customer_id i)) eqn:H2; [|discriminate].
    destruct (items i) as [|it l] eqn:H3; [discriminate|].
    simpl app. intros H. split; auto.
    + now rewrite H3.
    + rewrite H3. now apply concat_item_problems_nil.
  - intros [H1 H2 H3 H4]. rewrite H1, H2.
    apply concat_item_problems_nil in H4. rewrite H4.
    destruct (items i); [contradiction | reflexivity].
Qed.

End Validation.

(** ** The aggregator returns sums, or overflows *)

Section Aggregator.

Lemma float_of_int_Ok (n : Z) (q : float) :
  Py.float_of_int n = Ok q ->
  q = SF2Prim (binary_normalize prec emax n 0 false).
Proof.
  unfold Py.float_of_int.
  destruct (binary_normalize prec emax n 0 false);
    intros H; inversion H; reflexivity.
Qed.

Lemma float_of_int_Raise (n : Z) (e : exn) :
  Py.float_of_int n = Raise e -> e = OverflowError.
Proof.
  unfold Py.float_of_int.
  destruct (binary_normalize prec emax n 0 false);
    intros H; inversion H; reflexivity.
Qed.

Lemma float_of_int_cases (n : Z) :
  Agg.convertible n \/ Py.float_of_int n = Raise OverflowError.
Proof.
  unfold Agg.convertible, Py.float_of_int.
  destruct (binary_normalize prec emax n 0 false); eauto.
Qed.

(** The loop, one item further. *)
Lemma _calculate_subtotal_from_cons (it : LineItem) (l : list LineItem)
    (s f q : float) :
  Py.float_of_int (qty it) = Ok q ->
  _calculate_subtotal_from (it :: l) s f
  = _calculate_subtotal_from l (s + unit_price it * q)%float
      (if fragile it then (f + 5 * q)%float else f).
Proof.
  intros Hq. simpl. rewrite Hq. simpl.
  destruct (fragile it); reflexivity.
Qed.

Lemma _calculate_subtotal_from_sums (l : list LineItem) (s f : float) :
  Forall (fun it => Agg.convertible (qty it)) l ->
  _calculate_subtotal_from l s f
  = Ok (fold_left PrimFloat.add (map Agg.line_amount l) s,
        fold_left PrimFloat.add
          (map Agg.fragile_amount (filter (fun it => fragile it = true) l))
          f).
Proof.
  intros Hl. revert s f.
  induction Hl as [|it l [q Hq] _ IH]; intros s f; [reflexivity|].
  rewrite (_calculate_subtotal_from_cons _ _ _ _ _ Hq), IH.
  apply float_of_int_Ok in Hq. fold (Agg.qty_float it) in Hq. subst q.
  rewrite filter_cons. simpl map. simpl fold_left.
  destruct (fragile it); simpl; reflexivity.
Qed.

Lemma _calculate_subtotal_from_raise (l : list LineItem) (s f : float)
    (e : exn) :
  _calculate_subtotal_from l s f = Raise e -> e = OverflowError.
Proof.
  revert s f. induction l as [|it l IH]; intros s f; [discriminate|].
  destruct (Py.float_of_int (qty it)) as [q|e'] eqn:Hq.
  - rewrite (_calculate_subtotal_from_cons _ _ _ _ _ Hq). apply IH.
  - simpl. rewrite Hq. simpl. intros H. inversion H; subst.
    now apply float_of_int_Raise in Hq.
Qed.

Lemma _calculate_subtotal_from_overflow (l : list LineItem) (s f : float) :
  Exists (fun it => ~ Agg.convertible (qty it)) l ->
  _calculate_subtotal_from l s f = Raise OverflowError.
Proof.
  intros Hl. revert s f.
  induction l as [|it l IH]; intros s f; [inversion Hl|].
  destruct (float_of_int_cases (qty it)) as [[q Hq]|Hq].
  - rewrite (_calculate_subtotal_from_cons _ _ _ _ _ Hq). apply IH.
    inversion Hl as [? ? H|]; subst; [|assumption].
    exfalso. apply H. now exists q.
  - simpl. now rewrite Hq.
Qed.

End Aggregator.

Lemma aggregator_returns (l : list LineItem) :
  Forall (fun it => Agg.convertible (qty it)) l ->
  _calculate_subtotal l = Ok (Agg.subtotal l, Agg.fragile_fee l).
Proof.
  intros Hl. unfold _calculate_subtotal.
  now rewrite _calculate_subtotal_from_sums.
Qed.

(** ** The orchestrator on a validated invoice *)

Section Orchestrator.

Lemma compute_total_invalid (inv : option Invoice) :
  _validate inv <> [] ->
  compute_total inv = Raise (ValueError (Py.join "; " (_validate inv))).
Proof.
  unfold compute_total. destruct (_validate inv); [contradiction|reflexivity].
Qed.

Lemma compute_total_aggregates (i : Invoice) :
  _validate (Some i) = [] ->
  compute_total (Some i)
  = '(subtotal, fragile_fee) ← _calculate_subtotal (items i);
    Ok (Py.max (Run.total i subtotal fragile_fee) 0%float,
        Run.coupon_warnings i subtotal ++ Run.upgrade_warning i subtotal).
Proof.
  intros Hv. unfold compute_total. rewrite Hv.
  destruct (_calculate_subtotal (items i)) as [[s f]|e]; [|reflexivity].
  simpl. unfold Run.total, Run.coupon_warnings, Run.upgrade_warning,
    Run.tax, Run.discount, Run.shipping.
  destruct (_calculate_discount i s []) as [d ws]. simpl.
  destruct ((10000 <? s)%float
            && negb (bool_decide
                       (is_Some (MEMBERSHIP_DISCOUNT !! membership i))));
    [reflexivity | now rewrite app_nil_r].
Qed.

Lemma compute_total_valid (i : Invoice) (subtotal fragile_fee : float) :
  _validate (Some i) = [] ->
  _calculate_subtotal (items i) = Ok (subtotal, fragile_fee) ->
  compute_total (Some i)
  = Ok (Py.max (Run.total i subtotal fragile_fee) 0%float,
        Run.coupon_warnings i subtotal ++ Run.upgrade_warning i subtotal).
Proof.
  intros Hv Hs. now rewrite compute_total_aggregates, Hs.
Qed.

Lemma compute_total_overflow (i : Invoice) :
  _validate (Some i) = [] ->
  Exists (fun it => ~ Agg.convertible (qty it)) (items i) ->
  compute_total (Some i) = Raise OverflowError.
Proof.
  intros Hv Hs. rewrite compute_total_aggregates by assumption.
  unfold _calculate_subtotal.
  now rewrite _calculate_subtotal_from_overflow.
Qed.

Lemma compute_total_not_ValueError (inv : option Invoice) (msg : string) :
  _validate inv = [] -> compute_total inv <> Raise (ValueError msg).
Proof.
  intros Hv. destruct inv as [i|]; [|discriminate].
  rewrite compute_total_aggregates by assumption.
  destruct (_calculate_subtotal (items i)) as [[s f]|e] eqn:Hs;
    [discriminate|].
  apply _calculate_subtotal_from_raise in Hs. now subst e.
Qed.

End Orchestrator.

(** ** Shipping *)

Section ShippingFacts.

Lemma _calculate_shipping_scan_find (rules : list (float * float))
    (subtotal : float) :
  _calculate_shipping_scan rules subtotal = Shipping.first_fee rules subtotal.
Proof.
  unfold Shipping.first_fee.
  induction rules as [|[limit fee] rules IH]; simpl; [reflexivity|].
  unfold Shipping.applies at 1. simpl.
  destruct (subtotal <? limit)%float; [reflexivity | exact IH].
Qed.

(** What [find] returns is the first element that satisfies the test. *)
Lemma find_first {A : Type} (p : A -> bool) (l : list A) :
  match List.find p l with
  | Some x =>
      exists pre post, l = pre ++ x :: post
                       /\ Forall (fun y => p y = false) pre /\ p x = true
  | None => Forall (fun y => p y = false) l
  end.
Proof.
  induction l as [|a l IH]; simpl; [constructor|].
  destruct (p a) eqn:Ha.
  - exists [], l. repeat split; [constructor | exact Ha].
  - destruct (List.find p l) as [x|].
    + destruct IH as (pre & post & -> & Hpre & Hx).
      exists (a :: pre), post. repeat split; [|exact Hx].
      now constructor.
    + now constructor.
Qed.

Lemma configured_rules_default (country : string) :
  default (SHIPPING_RULES !!! "OTHER") (SHIPPING_RULES !! country)
  = Shipping.configured_rules country.
Proof.
  unfold Shipping.configured_rules.
  destruct (SHIPPING_RULES !! country); reflexivity.
Qed.

End ShippingFacts.

(** ** Discounts and warnings *)

Section DiscountFacts.

Variables (i : Invoice) (subtotal : float) (warnings : list string).

Lemma _calculate_discount_amount :
  (_calculate_discount i subtotal warnings).1
  = Discount.plus
      (Discount.plus 0%float
         (Discount.membership_part (membership i) subtotal))
      (Discount.coupon_part (coupon i) subtotal).
Proof.
  unfold _calculate_discount, Discount.membership_part, Discount.coupon_part.
  destruct (MEMBERSHIP_DISCOUNT !! membership i) as [rate|];
    [|destruct (3000 <? subtotal)%float];
    (destruct (coupon i) as [c|]; [|reflexivity]);
    (destruct (Py.truthy c); [|reflexivity]);
    destruct (_coupon_rate !! Py.strip c); reflexivity.
Qed.

Lemma _calculate_discount_warnings :
  (_calculate_discount i subtotal warnings).2
  = warnings
    ++ match coupon i with
       | Some c =>
           if Py.truthy c && negb (bool_decide
                                     (is_Some (_coupon_rate !! Py.strip c)))
           then ["Unknown coupon"]
           else []
       | None => []
       end.
Proof.
  unfold _calculate_discount.
  destruct (coupon i) as [c|]; [|now rewrite app_nil_r].
  destruct (Py.truthy c); [|now rewrite app_nil_r].
  destruct (_coupon_rate !! Py.strip c) as [rate|] eqn:Hc;
    simpl; now rewrite ?app_nil_r.
Qed.

Lemma _calculate_discount_without_coupon :
  (_calculate_discount (Discount.without_coupon i) subtotal warnings)
  = (Discount.plus 0%float
       (Discount.membership_part (membership i) subtotal), warnings).
Proof.
  unfold _calculate_discount, Discount.membership_part. simpl.
  destruct (MEMBERSHIP_DISCOUNT !! membership i) as [rate|];
    [|destruct (3000 <? subtotal)%float]; reflexivity.
Qed.

End DiscountFacts.

Section StripFacts.

Lemma lstrip_all_space (s : string) :
  Discount.all_space s = true -> Py.lstrip s = "".
Proof.
  induction s as [|c s IH]; simpl; [reflexivity|].
  intros H. apply andb_true_iff in H as [Hc Hs]. rewrite Hc. now apply IH.
Qed.

Lemma strip_isspace (s : string) :
  Discount.isspace s = true -> Py.strip s = "".
Proof.
  unfold Discount.isspace, Py.strip. intros H.
  apply andb_true_iff in H as [_ H]. now rewrite lstrip_all_space.
Qed.

Lemma truthy_nonempty (s : string) : Py.truthy s = true <-> s <> "".
Proof.
  destruct s; simpl; split; try congruence; intros; discriminate.
Qed.

Lemma no_empty_coupon_code : _coupon_rate !! "" = None.
Proof. reflexivity. Qed.

End StripFacts.

Section WarningFacts.

Variables (i : Invoice) (subtotal : float).

Lemma coupon_warnings_cases :
  Run.coupon_warnings i subtotal = []
  \/ Run.coupon_warnings i subtotal = ["Unknown coupon"].
Proof.
  unfold Run.coupon_warnings. rewrite _calculate_discount_warnings.
  destruct (coupon i) as [c|]; [|now left].
  destruct (Py.truthy c
            && negb (bool_decide (is_Some (_coupon_rate !! Py.strip c))));
    [now right | now left].
Qed.

Lemma upgrade_warning_cases :
  Run.upgrade_warning i subtotal
  = if (10000 <? subtotal)%float
    then match MEMBERSHIP_DISCOUNT !! membership i with
         | Some _ => []
         | None => ["Consider membership upgrade"]
         end
    else [].
Proof.
  unfold Run.upgrade_warning.
  destruct (10000 <? subtotal)%float; [|reflexivity].
  destruct (MEMBERSHIP_DISCOUNT !! membership i); reflexivity.
Qed.

Lemma unknown_coupon_warning (c : string) (ws : list string) :
  coupon i = Some c -> c <> "" -> _coupon_rate !! Py.strip c = None ->
  _calculate_discount i subtotal ws
  = (Discount.plus 0%float
       (Discount.membership_part (membership i) subtotal),
     ws ++ ["Unknown coupon"]).
Proof.
  intros Hc Hne Hu. apply truthy_nonempty in Hne.
  unfold _calculate_discount, Discount.membership_part.
  rewrite Hc, Hne, Hu.
  destruct (MEMBERSHIP_DISCOUNT !! membership i) as [rate|];
    [|destruct (3000 <? subtotal)%float]; reflexivity.
Qed.

End WarningFacts.

(** ** Tax *)

Section TaxFacts.

Lemma _calculate_tax_rate (c : string) (amount : float) :
  _calculate_tax c amount = (amount * Tax.rate c)%float.
Proof.
  unfold _calculate_tax, Tax.rate. destruct (TAX_RATE !! c); reflexivity.
Qed.

Lemma tax_rate_cases (c : string) :
  TAX_RATE !! c = Some (Tax.rate c)
  \/ TAX_RATE !! c = None /\ TAX_RATE !! "OTHER" = Some (Tax.rate c).
Proof.
  unfold Tax.rate. destruct (TAX_RATE !! c); [left | right]; split;
    reflexivity.
Qed.

End TaxFacts.

(** ** Facts on floats *)

Section FloatFacts.

Lemma Prim2SF_zero : Prim2SF 0 = S754_zero false.
Proof. reflexivity. Qed.

(** [max(x, 0.0)] is never below zero. *)
Lemma max_zero_not_below (x : float) : (Py.max x 0 <? 0)%float = false.
Proof.
  unfold Py.max. destruct (x <? 0)%float eqn:H; [reflexivity | exact H].
Qed.

(** A float that is neither below zero nor NaN is at least zero. *)
Lemma not_below_zero_ge (x : float) :
  (x <? 0)%float = false -> is_nan x = false -> (0 <=? x)%float = true.
Proof.
  unfold is_nan.
  rewrite FloatAxioms.ltb_spec, FloatAxioms.leb_spec, FloatAxioms.eqb_spec,
    Prim2SF_zero.
  intros Hlt Hnan.
  destruct (Prim2SF x) as [s|s| |s m e]; try destruct s;
    try reflexivity; discriminate.
Qed.

End FloatFacts.

(** ** The order of summation *)

Section AdditionFacts.

Lemma SFadd_comm (x y : spec_float) :
  SFadd prec emax x y = SFadd prec emax y x.
Proof.
  destruct x as [sx|sx| |sx mx ex], y as [sy|sy| |sy my ey];
    try destruct sx; try destruct sy; try reflexivity;
    unfold SFadd; now rewrite Z.min_comm, Z.add_comm.
Qed.

Lemma add_comm (x y : float) : (x + y = y + x)%float.
Proof.
  apply Prim2SF_inj. rewrite !FloatAxioms.add_spec. apply SFadd_comm.
Qed.

(** Adding to [0.0] first [a] and then [b], or first [b] and then [a]. *)
Lemma add_zero_swap (a b : float) : (0 + a + b = 0 + b + a)%float.
Proof.
  apply Prim2SF_inj. rewrite !FloatAxioms.add_spec, Prim2SF_zero.
  unfold SF64add.
  destruct (Prim2SF a) as [sa|sa| |sa ma ea],
           (Prim2SF b) as [sb|sb| |sb mb eb];
    try destruct sa; try destruct sb; try reflexivity;
    change (SFadd prec emax (S754_zero false) (S754_finite ?s ?m ?e))
      with (S754_finite s m e); apply SFadd_comm.
Qed.

(** The aggregator on two items. *)
Lemma _calculate_subtotal_two (a b : LineItem) :
  _calculate_subtotal [a; b] = _calculate_subtotal [b; a].
Proof.
  destruct (float_of_int_cases (qty a)) as [Ha|Ha],
           (float_of_int_cases (qty b)) as [Hb|Hb].
  - rewrite !aggregator_returns by (repeat constructor; assumption).
    unfold Agg.subtotal, Agg.fragile_fee, Agg.sum_left.
    rewrite !filter_cons, filter_nil. simpl map. simpl fold_left.
    f_equal. f_equal; [apply add_zero_swap|].
    destruct (fragile a), (fragile b); simpl; try reflexivity.
    apply add_zero_swap.
  - unfold _calculate_subtotal.
    rewrite !_calculate_subtotal_from_overflow; [reflexivity| |].
    + apply Exists_cons_hd. intros [q Hq]. congruence.
    + apply Exists_cons_tl, Exists_cons_hd. intros [q Hq]. congruence.
  - unfold _calculate_subtotal.
    rewrite !_calculate_subtotal_from_overflow; [reflexivity| |].
    + apply Exists_cons_tl, Exists_cons_hd. intros [q Hq]. congruence.
    + apply Exists_cons_hd. intros [q Hq]. congruence.
  - unfold _calculate_subtotal.
    rewrite !_calculate_subtotal_from_overflow; [reflexivity| |].
    + apply Exists_cons_hd. intros [q Hq]. congruence.
    + apply Exists_cons_hd. intros [q Hq]. congruence.
Qed.

End AdditionFacts.

(** ** Rounding

    The operations of [SpecFloat] round by shifting the mantissa to the
    right.  What follows bounds the result of a rounding by a power of two,
    which is all the discount needs. *)

Section ShiftFacts.

Local Open Scope Z_scope.

Lemma iter_pos_nat {A : Type} (f : A -> A) (p : positive) (x : A) :
  SpecFloat.iter_pos f p x = Nat.iter (Pos.to_nat p) f x.
Proof.
  revert x. induction p as [p IH|p IH|]; intros x; cbn [SpecFloat.iter_pos].
  - rewrite !IH, Pos2Nat.inj_xI.
    rewrite <- Nat.iter_succ_r, <- Nat.iter_add. f_equal. lia.
  - rewrite !IH, Pos2Nat.inj_xO, <- Nat.iter_add. f_equal. lia.
  - reflexivity.
Qed.

Lemma shr_1_m (y : shr_record) :
  0 <= shr_m y -> shr_m (shr_1 y) = shr_m y / 2.
Proof.
  destruct y as [m r s]. cbn [shr_m]. intros Hm.
  destruct m as [|[p|p|]|p]; cbn [shr_1 shr_m]; try reflexivity; try lia.
  - apply Z.div_unique with 1; lia.
  - apply Z.div_unique with 0; lia.
Qed.

Lemma shr_1_r (y : shr_record) :
  0 <= shr_m y -> shr_r (shr_1 y) = Z.odd (shr_m y).
Proof.
  destruct y as [m r s]. cbn [shr_m]. intros Hm.
  destruct m as [|[p|p|]|p]; try reflexivity; lia.
Qed.

Lemma shr_iter_m (n : nat) (y : shr_record) :
  0 <= shr_m y ->
  shr_m (Nat.iter n shr_1 y) = shr_m y / 2 ^ Z.of_nat n.
Proof.
  intros Hm. induction n as [|n IH].
  - simpl. now rewrite Z.div_1_r.
  - rewrite Nat2Z.inj_succ, Z.pow_succ_r by lia. simpl Nat.iter.
    rewrite shr_1_m.
    + rewrite IH, Z.div_div by lia. f_equal. lia.
    + rewrite IH. apply Z.div_pos; lia.
Qed.

Lemma shr_iter_r (n : nat) (y : shr_record) :
  0 <= shr_m y ->
  shr_r (Nat.iter (S n) shr_1 y) = Z.odd (shr_m y / 2 ^ Z.of_nat n).
Proof.
  intros Hm. simpl Nat.iter. rewrite shr_1_r; rewrite shr_iter_m by assumption.
  - reflexivity.
  - apply Z.div_pos; lia.
Qed.

(** Shifting [m], exactly known, right by [n] bits. *)
Lemma shr_exact (m e n : Z) :
  0 <= m -> 0 < n ->
  exists y, shr (shr_record_of_loc m loc_Exact) e n = (y, e + n)
            /\ shr_m y = m / 2 ^ n
            /\ shr_r y = Z.odd (m / 2 ^ (n - 1)).
Proof.
  intros Hm Hn. destruct n as [|p|p]; try lia.
  unfold shr. eexists. split; [reflexivity|].
  rewrite iter_pos_nat. simpl shr_record_of_loc.
  split.
  - rewrite shr_iter_m by (simpl; lia). simpl shr_m.
    now rewrite positive_nat_Z.
  - destruct (Pos2Nat.is_succ p) as [k Hk]. rewrite Hk.
    rewrite shr_iter_r by (simpl; lia). simpl shr_m.
    do 3 f_equal. lia.
Qed.

Lemma shr_stay (y : shr_record) (e n : Z) :
  n <= 0 -> shr y e n = (y, e).
Proof.
  destruct n; try reflexivity. lia.
Qed.

Lemma round_nearest_even_bounds (y : shr_record) :
  shr_m y <= round_nearest_even (shr_m y) (loc_of_shr_record y) <= shr_m y + 1.
Proof.
  destruct y as [m [|] [|]]; simpl; try lia. destruct (Z.even m); lia.
Qed.

Lemma round_nearest_even_down (y : shr_record) :
  shr_r y = false ->
  round_nearest_even (shr_m y) (loc_of_shr_record y) = shr_m y.
Proof.
  destruct y as [m [|] [|]]; simpl; intros H; congruence.
Qed.

Lemma digits2_pos_bounds (m : positive) :
  2 ^ (Z.pos (digits2_pos m) - 1) <= Z.pos m < 2 ^ Z.pos (digits2_pos m).
Proof.
  induction m as [m IH|m IH|]; simpl digits2_pos.
  - rewrite Pos2Z.inj_succ, (Pos2Z.inj_xI m).
    replace (Z.succ (Z.pos (digits2_pos m)) - 1)
      with (Z.succ (Z.pos (digits2_pos m) - 1)) by lia.
    rewrite !Z.pow_succ_r by lia. lia.
  - rewrite Pos2Z.inj_succ, (Pos2Z.inj_xO m).
    replace (Z.succ (Z.pos (digits2_pos m)) - 1)
      with (Z.succ (Z.pos (digits2_pos m) - 1)) by lia.
    rewrite !Z.pow_succ_r by lia. lia.
  - simpl. lia.
Qed.

Lemma Zdigits2_le (m j : Z) :
  0 <= m -> m < 2 ^ j -> Zdigits2 m <= j.
Proof.
  intros Hm Hj. destruct m as [|p|p]; try lia.
  - simpl. destruct (Z.le_gt_cases 0 j) as [H|H]; [assumption|].
    rewrite Z.pow_neg_r in Hj by assumption. lia.
  - simpl. pose proof (digits2_pos_bounds p) as [Hlo _].
    destruct (Z.le_gt_cases (Z.pos (digits2_pos p)) j) as [H|H];
      [assumption|exfalso].
    destruct (Z.le_gt_cases 0 j) as [H0|H0].
    + assert (2 ^ j <= 2 ^ (Z.pos (digits2_pos p) - 1))
        by (apply Z.pow_le_mono_r; lia).
      lia.
    + rewrite Z.pow_neg_r in Hj by assumption. lia.
Qed.

End ShiftFacts.

Section RoundingFacts.

Local Open Scope Z_scope.

Lemma fexp_eq (x : Z) : fexp prec emax x = Z.max (x - 53) (-1074).
Proof. reflexivity. Qed.

Lemma div_pow2_lt (a n j : Z) :
  0 <= n <= j -> a < 2 ^ j -> a / 2 ^ n < 2 ^ (j - n).
Proof.
  intros Hn Ha. apply Z.div_lt_upper_bound; [lia|].
  rewrite <- Z.pow_add_r by lia. now replace (n + (j - n)) with j by lia.
Qed.

Lemma div_pow2_le (a n j : Z) :
  0 <= a -> 0 <= n -> a <= 2 ^ j -> a / 2 ^ n <= 2 ^ (j - n).
Proof.
  intros Ha Hn Hj. destruct (Z.le_gt_cases n j) as [H|H].
  - replace (2 ^ (j - n)) with (2 ^ j / 2 ^ n).
    + apply Z.div_le_mono; lia.
    + symmetry. apply Z.pow_sub_r; lia.
  - rewrite (Z.pow_neg_r 2 (j - n)) by lia.
    rewrite Z.div_small; [lia|]. split; [assumption|].
    destruct (Z.le_gt_cases 0 j) as [H0|H0].
    + assert (2 ^ j < 2 ^ n) by (apply Z.pow_lt_mono_r; lia). lia.
    + rewrite Z.pow_neg_r in Hj by assumption.
      assert (0 < 2 ^ n) by (apply Z.pow_pos_nonneg; lia). lia.
Qed.

(** The second shift of [binary_round_aux], on a mantissa that is at most
    [2 ^ (k - e)] and has at most 54 bits. *)
Lemma renormalize_below (m e k : Z) :
  0 <= m -> m <= 2 ^ (k - e) -> m < 2 ^ 54 -> -1074 <= e -> e <= 971 ->
  k <= 1023 ->
  below_pow2 k
    (let '(mrs, e') := shr_fexp prec emax m e loc_Exact in
     match shr_m mrs with
     | Z0 => S754_zero false
     | Zpos p =>
         if e' <=? emax - prec then S754_finite false p e'
         else S754_infinity false
     | Zneg _ => S754_nan
     end).
Proof.
  intros Hm Hk H54 He He' Hk'. unfold shr_fexp. rewrite fexp_eq.
  pose proof (Zdigits2_le m 54 Hm H54) as Hd.
  set (n := Z.max (Zdigits2 m + e - 53) (-1074) - e).
  assert (Hn : n <= 1) by lia.
  assert (Hn' : e = 971 -> n <= 0).
  { intros ->. assert (Zdigits2 m <= 53); [|lia].
    apply Zdigits2_le; [assumption|].
    assert (2 ^ (k - 971) <= 2 ^ 52) by (apply Z.pow_le_mono_r; lia).
    assert (2 ^ 52 < 2 ^ 53) by (apply Z.pow_lt_mono_r; lia). lia. }
  destruct (Z.le_gt_cases n 0) as [Hn0|Hn0].
  - rewrite shr_stay by assumption. cbn [shr_record_of_loc shr_m].
    destruct m as [|p|p]; [exact I| |lia].
    replace (e <=? emax - prec) with true
      by (symmetry; apply Z.leb_le; change (emax - prec) with 971; lia).
    split; [exact Hk | assumption].
  - destruct (shr_exact m e n Hm Hn0) as (y & -> & Hy & _).
    assert (Hy' : 0 <= shr_m y <= 2 ^ (k - (e + n))).
    { rewrite Hy. split; [apply Z.div_pos; lia|].
      replace (k - (e + n)) with (k - e - n) by lia.
      apply div_pow2_le; lia. }
    destruct (shr_m y) as [|p|p]; [exact I| |lia].
    replace (e + n <=? emax - prec) with true
      by (symmetry; apply Z.leb_le; change (emax - prec) with 971; lia).
    split; [apply Hy' | lia].
Qed.

(** Rounding a positive number below [2 ^ k] gives at most [2 ^ k]. *)
Lemma binary_round_aux_below (M : positive) (E k : Z) :
  Z.pos M < 2 ^ (k - E) -> E <= 971 -> k <= 1023 ->
  below_pow2 k (binary_round_aux prec emax false (Z.pos M) E loc_Exact).
Proof.
  intros HM HE Hk. unfold binary_round_aux.
  assert (HkE : 0 <= k - E).
  { destruct (Z.le_gt_cases 0 (k - E)) as [H|H]; [assumption|].
    rewrite Z.pow_neg_r in HM by assumption. lia. }
  pose proof (Zdigits2_le (Z.pos M) (k - E) ltac:(lia) HM) as Hd.
  pose proof (digits2_pos_bounds M) as [_ Hd2].
  change (Z.pos (digits2_pos M)) with (Zdigits2 (Z.pos M)) in Hd2.
  unfold shr_fexp at 1. rewrite fexp_eq.
  set (d := Zdigits2 (Z.pos M)) in *.
  set (n := Z.max (d + E - 53) (-1074) - E).
  destruct (Z.le_gt_cases n 0) as [Hn0|Hn0].
  - rewrite shr_stay by assumption.
    cbn [shr_record_of_loc shr_m loc_of_shr_record round_nearest_even].
    apply renormalize_below; try lia.
    assert (2 ^ d <= 2 ^ 54) by (apply Z.pow_le_mono_r; lia). lia.
  - destruct (shr_exact (Z.pos M) E n ltac:(lia) Hn0) as (y & -> & Hy & Hr).
    pose proof (round_nearest_even_bounds y) as Hb.
    assert (H1 : 0 <= shr_m y < 2 ^ 53).
    { rewrite Hy. split; [apply Z.div_pos; lia|].
      assert (Z.pos M < 2 ^ (n + 53)).
      { assert (2 ^ d <= 2 ^ (n + 53)) by (apply Z.pow_le_mono_r; lia). lia. }
      replace 53 with (n + 53 - n) by lia. apply div_pow2_lt; lia. }
    apply renormalize_below; try lia.
    destruct (Z.le_gt_cases (E + n) k) as [Hke|Hke].
    + assert (shr_m y < 2 ^ (k - (E + n))); [|lia].
      rewrite Hy. replace (k - (E + n)) with (k - E - n) by lia.
      apply div_pow2_lt; lia.
    + rewrite (Z.pow_neg_r 2 (k - (E + n))) by lia.
      assert (Hsmall : Z.pos M < 2 ^ (n - 1)).
      { assert (2 ^ (k - E) <= 2 ^ (n - 1)) by (apply Z.pow_le_mono_r; lia).
        lia. }
      rewrite round_nearest_even_down.
      * rewrite Hy, Z.div_small; [lia|]. split; [lia|].
        assert (2 ^ (n - 1) <= 2 ^ n) by (apply Z.pow_le_mono_r; lia). lia.
      * rewrite Hr, Z.div_small by lia. reflexivity.
Qed.

Lemma below_pow2_mono (k k' : Z) (x : spec_float) :
  k <= k' -> below_pow2 k x -> below_pow2 k' x.
Proof.
  intros Hk. destruct x as [s|s| |[|] m e]; simpl; try tauto.
  intros [Hm He]. split; [|assumption].
  destruct (Z.le_gt_cases 0 (k - e)) as [H|H].
  - assert (2 ^ (k - e) <= 2 ^ (k' - e)) by (apply Z.pow_le_mono_r; lia). lia.
  - rewrite Z.pow_neg_r in Hm by assumption. lia.
Qed.

Lemma iter_xO (m d : positive) :
  Z.pos (Pos.iter xO m d) = Z.pos m * 2 ^ Z.pos d.
Proof.
  rewrite <- Z.shiftl_mul_pow2 by lia. unfold Z.shiftl.
  now rewrite (Pos.iter_swap_gen _ _ Z.pos xO (Z.mul 2)).
Qed.

Lemma shl_align_spec (m : positive) (e e' : Z) :
  (shl_align m e e').2 <= e
  /\ Z.pos (shl_align m e e').1 = Z.pos m * 2 ^ (e - (shl_align m e e').2).
Proof.
  unfold shl_align. destruct (e' - e) as [|d|d] eqn:Hd; simpl.
  - rewrite Z.sub_diag. lia.
  - rewrite Z.sub_diag. lia.
  - rewrite iter_xO. split; [lia|]. do 2 f_equal. lia.
Qed.

Lemma binary_round_below (M : positive) (E k : Z) :
  Z.pos M < 2 ^ (k - E) -> E <= 971 -> k <= 1023 ->
  below_pow2 k (binary_round prec emax false M E).
Proof.
  intros HM HE Hk. unfold binary_round.
  pose proof (shl_align_spec M E
                (fexp prec emax (Z.pos (digits2_pos M) + E))) as [H1 H2].
  destruct (shl_align M E _) as [mz ez]. simpl in H1, H2.
  assert (HkE : 0 <= k - E).
  { destruct (Z.le_gt_cases 0 (k - E)) as [H|H]; [assumption|].
    rewrite Z.pow_neg_r in HM by assumption. lia. }
  apply binary_round_aux_below; try lia.
  rewrite H2. replace (k - ez) with (k - E + (E - ez)) by lia.
  rewrite Z.pow_add_r by lia.
  apply Z.mul_lt_mono_pos_r; [apply Z.pow_pos_nonneg; lia | assumption].
Qed.

(** A natural number below [2 ^ 1023] converts to a float. *)
Lemma convertible_small (n : Z) : 0 <= n < 2 ^ 1023 -> Agg.convertible n.
Proof.
  intros Hn. unfold Agg.convertible, Py.float_of_int.
  destruct n as [|p|p]; [eexists; reflexivity | | lia].
  pose proof (binary_round_below p 0 1023) as H.
  rewrite Z.sub_0_r in H. specialize (H ltac:(lia) ltac:(lia) ltac:(lia)).
  cbn [binary_normalize].
  destruct (binary_round prec emax false p 0) as [s|s| |s m e];
    [eexists; reflexivity | contradiction | eexists; reflexivity
    | eexists; reflexivity].
Qed.

Lemma SFmul_below (x y : spec_float) (kx ky : Z) :
  strictly_below_pow2 kx x -> strictly_below_pow2 ky y ->
  kx + ky <= 1023 -> ky <= 0 ->
  below_pow2 (kx + ky) (SFmul prec emax x y).
Proof.
  intros Hx Hy Hk Hky.
  destruct x as [sx|sx| |[|] mx ex], y as [sy|sy| |[|] my ey];
    simpl in Hx, Hy; try contradiction; try exact I.
  destruct Hx as [Hx Hex], Hy as [Hy Hey]. cbn [SFmul xorb].
  assert (Hkx : 0 <= kx - ex).
  { destruct (Z.le_gt_cases 0 (kx - ex)) as [H|H]; [assumption|].
    rewrite Z.pow_neg_r in Hx by assumption. lia. }
  assert (Hky' : 0 <= ky - ey).
  { destruct (Z.le_gt_cases 0 (ky - ey)) as [H|H]; [assumption|].
    rewrite Z.pow_neg_r in Hy by assumption. lia. }
  apply binary_round_aux_below; try lia.
  rewrite Pos2Z.inj_mul.
  replace (kx + ky - (ex + ey)) with ((kx - ex) + (ky - ey)) by lia.
  rewrite Z.pow_add_r by lia. nia.
Qed.

Lemma SFadd_below (x y : spec_float) (kx ky k : Z) :
  below_pow2 kx x -> below_pow2 ky y -> kx < ky -> ky < k -> k <= 1023 ->
  below_pow2 k (SFadd prec emax x y).
Proof.
  intros Hx Hy Hxy Hyk Hk.
  destruct x as [sx|sx| |[|] mx ex], y as [sy|sy| |[|] my ey];
    simpl in Hx, Hy; try contradiction.
  - destruct sx, sy; exact I.
  - simpl. destruct Hy. split; [|assumption].
    apply (below_pow2_mono ky k (S754_finite false my ey)); [lia|].
    now split.
  - simpl. destruct Hx. 
    apply (below_pow2_mono kx k (S754_finite false mx ex)); [lia|].
    now split.
  - destruct Hx as [Hx Hex], Hy as [Hy Hey]. cbn [SFadd cond_Zopp].
    set (ez := Z.min ex ey).
    pose proof (shl_align_spec mx ex ez) as [Ha1 Ha2].
    pose proof (shl_align_spec my ey ez) as [Hb1 Hb2].
    assert (Ha3 : (shl_align mx ex ez).2 = ez).
    { unfold shl_align. destruct (ez - ex) eqn:He; simpl; lia. }
    assert (Hb3 : (shl_align my ey ez).2 = ez).
    { unfold shl_align. destruct (ez - ey) eqn:He; simpl; lia. }
    rewrite Ha3 in Ha2. rewrite Hb3 in Hb2.
    change (fst ?p) with (p.1).
    destruct (shl_align mx ex ez) as [ma ea], (shl_align my ey ez) as [mb eb].
    simpl in *. 
    change (Z.pos ma + Z.pos mb) with (Z.pos (ma + mb)).
    cbn [binary_normalize].
    assert (Hkx : 0 <= kx - ex).
    { destruct (Z.le_gt_cases 0 (kx - ex)) as [H|H]; [assumption|].
      rewrite Z.pow_neg_r in Hx by assumption. lia. }
    assert (Hky : 0 <= ky - ey).
    { destruct (Z.le_gt_cases 0 (ky - ey)) as [H|H]; [assumption|].
      rewrite Z.pow_neg_r in Hy by assumption. lia. }
    apply binary_round_below; try lia.
    rewrite Pos2Z.inj_add, Ha2, Hb2.
    assert (Z.pos mx * 2 ^ (ex - ez) <= 2 ^ (kx - ez)).
    { replace (kx - ez) with ((kx - ex) + (ex - ez)) by lia.
      rewrite Z.pow_add_r by lia.
      apply Z.mul_le_mono_nonneg_r; [apply Z.pow_nonneg; lia | assumption]. }
    assert (Z.pos my * 2 ^ (ey - ez) <= 2 ^ (ky - ez)).
    { replace (ky - ez) with ((ky - ey) + (ey - ez)) by lia.
      rewrite Z.pow_add_r by lia.
      apply Z.mul_le_mono_nonneg_r; [apply Z.pow_nonneg; lia | assumption]. }
    assert (2 ^ (kx - ez) < 2 ^ (ky - ez)) by (apply Z.pow_lt_mono_r; lia).
    assert (2 ^ (ky - ez + 1) <= 2 ^ (k - ez))
      by (apply Z.pow_le_mono_r; lia).
    rewrite Z.pow_add_r in * by lia. lia.
Qed.

End RoundingFacts.

Section CompareFacts.

Local Open Scope Z_scope.

Lemma bounded_spec (m : positive) (e : Z) :
  bounded prec emax m e = true ->
  Z.max (Zdigits2 (Z.pos m) + e - 53) (-1074) = e /\ e <= 971.
Proof.
  unfold bounded, canonical_mantissa. rewrite fexp_eq.
  intros H. apply andb_true_iff in H as [H1 H2].
  apply Z.eqb_eq in H1. apply Z.leb_le in H2.
  change (emax - prec) with 971 in H2. now split.
Qed.

Lemma valid_strictly_below (m : positive) (e : Z) :
  bounded prec emax m e = true ->
  strictly_below_pow2 (Zdigits2 (Z.pos m) + e) (S754_finite false m e).
Proof.
  intros H. apply bounded_spec in H as [_ He]. simpl. split; [|assumption].
  replace (Z.pos (digits2_pos m) + e - e) with (Z.pos (digits2_pos m))
    by lia.
  apply digits2_pos_bounds.
Qed.

(** A valid float that is at most half the power of two above [m * 2^e] is
    not above [m * 2^e]. *)
Lemma compare_below (m : positive) (e : Z) (y : spec_float) :
  bounded prec emax m e = true -> valid_binary y = true ->
  below_pow2 (Zdigits2 (Z.pos m) + e - 1) y ->
  SFltb (S754_finite false m e) y = false.
Proof.
  intros Hx Hy Hb. apply bounded_spec in Hx as [Hx Hxe].
  destruct y as [s|s| |[|] my ey]; simpl in Hb; try contradiction;
    [reflexivity|].
  destruct Hb as [Hb _]. apply bounded_spec in Hy as [Hy Hye].
  pose proof (digits2_pos_bounds m) as [Hlo Hhi].
  pose proof (digits2_pos_bounds my) as [Hlo' Hhi'].
  simpl Zdigits2 in *.
  set (d := Z.pos (digits2_pos m)) in *.
  set (d' := Z.pos (digits2_pos my)) in *.
  assert (Hk : 0 <= d + e - 1 - ey).
  { destruct (Z.le_gt_cases 0 (d + e - 1 - ey)) as [H|H]; [assumption|].
    rewrite Z.pow_neg_r in Hb by assumption. lia. }
  unfold SFltb, SFcompare.
  destruct (Z.compare_spec e ey) as [Heq|Hlt|Hgt]; [| |reflexivity].
  - subst ey. replace (d + e - 1 - e) with (d - 1) in Hb by lia.
    rewrite Pos.compare_cont_spec. simpl.
    destruct (Pos.compare_spec m my) as [H|H|H]; try reflexivity. lia.
  - exfalso.
    assert (2 ^ (d' - 1) <= 2 ^ (d + e - 1 - ey)) by lia.
    apply Z.pow_le_mono_r_iff in H; lia.
Qed.

Lemma compare_zero_below (s : bool) (y : spec_float) (k : Z) :
  valid_binary y = true -> below_pow2 k y -> k < -1074 ->
  SFltb (S754_zero s) y = false.
Proof.
  intros Hy Hb Hk.
  destruct y as [sy|sy| |[|] my ey]; simpl in Hb; try contradiction;
    [reflexivity|].
  destruct Hb as [Hb _]. apply bounded_spec in Hy as [Hy _].
  rewrite Z.pow_neg_r in Hb by lia. lia.
Qed.

End CompareFacts.

(** ** Signs *)

Section SignFacts.

Lemma binary_round_aux_not_below (m e : Z) (l : location) :
  not_below_zero (binary_round_aux prec emax false m e l).
Proof.
  unfold not_below_zero, binary_round_aux.
  destruct (shr_fexp prec emax m e l) as [mrs' e'].
  destruct (shr_fexp prec emax _ e' loc_Exact) as [mrs'' e''].
  destruct (shr_m mrs''); [reflexivity| |reflexivity].
  destruct (e'' <=? emax - prec)%Z; reflexivity.
Qed.

Lemma binary_round_not_below (m : positive) (e : Z) :
  not_below_zero (binary_round prec emax false m e).
Proof.
  unfold binary_round. destruct (shl_align m e _) as [mz ez].
  apply binary_round_aux_not_below.
Qed.

Lemma binary_normalize_not_below (z e : Z) :
  (0 <= z)%Z -> not_below_zero (binary_normalize prec emax z e false).
Proof.
  intros Hz. destruct z as [|p|p]; [reflexivity| |lia].
  apply binary_round_not_below.
Qed.

Lemma SFmul_not_below (x y : spec_float) :
  not_below_zero x -> not_below_zero y ->
  not_below_zero (SFmul prec emax x y).
Proof.
  destruct x as [sx|sx| |sx mx ex], y as [sy|sy| |sy my ey];
    try destruct sx; try destruct sy; intros Hx Hy;
    try discriminate; try reflexivity.
  apply binary_round_aux_not_below.
Qed.

Lemma SFadd_not_below (x y : spec_float) :
  not_below_zero x -> not_below_zero y ->
  not_below_zero (SFadd prec emax x y).
Proof.
  destruct x as [sx|sx| |sx mx ex], y as [sy|sy| |sy my ey];
    try destruct sx; try destruct sy; intros Hx Hy;
    try discriminate; try reflexivity.
  cbn [SFadd cond_Zopp].
  change (Z.pos ?a + Z.pos ?b)%Z with (Z.pos (a + b)).
  apply binary_round_not_below.
Qed.

Lemma SFldexp_not_below (x : spec_float) (e : Z) :
  not_below_zero x -> not_below_zero (SFldexp prec emax x e).
Proof.
  destruct x as [sx|sx| |[|] mx ex]; intros Hx; try exact Hx;
    [discriminate|].
  apply binary_round_not_below.
Qed.

Lemma mul_not_below (x y : float) :
  (x <? 0)%float = false -> (y <? 0)%float = false ->
  (x * y <? 0)%float = false.
Proof.
  rewrite !FloatAxioms.ltb_spec, FloatAxioms.mul_spec, Prim2SF_zero.
  apply SFmul_not_below.
Qed.

Lemma add_not_below (x y : float) :
  (x <? 0)%float = false -> (y <? 0)%float = false ->
  (x + y <? 0)%float = false.
Proof.
  rewrite !FloatAxioms.ltb_spec, FloatAxioms.add_spec, Prim2SF_zero.
  apply SFadd_not_below.
Qed.

(** The float of a natural number is not below zero. *)
Lemma float_of_int_not_below (n : Z) (q : float) :
  (0 <= n)%Z -> Py.float_of_int n = Ok q -> (q <? 0)%float = false.
Proof.
  intros Hn Hq. unfold Py.float_of_int in Hq.
  pose proof (binary_normalize_not_below n 0 Hn) as Hs.
  destruct (binary_normalize prec emax n 0 false) as [s|s| |s m e];
    [| discriminate | |]; inversion Hq; subst q; clear Hq.
  - destruct s; reflexivity.
  - reflexivity.
  - destruct s; [discriminate|]. cbn [SF2Prim].
    rewrite FloatAxioms.ltb_spec, Z_ldexp_spec, of_uint63_spec, Prim2SF_zero.
    apply SFldexp_not_below, binary_normalize_not_below.
    apply Uint63.to_Z_bounded.
Qed.

Lemma _calculate_subtotal_from_not_below (l : list LineItem)
    (s0 f0 s f : float) :
  Forall item_ok l -> (s0 <? 0)%float = false ->
  _calculate_subtotal_from l s0 f0 = Ok (s, f) ->
  (s <? 0)%float = false.
Proof.
  intros Hl. revert s0 f0.
  induction Hl as [|it l Hit _ IH]; intros s0 f0 Hs0 Hs.
  - now inversion Hs; subst.
  - destruct (Py.float_of_int (qty it)) as [q|e] eqn:Hq.
    + rewrite (_calculate_subtotal_from_cons _ _ _ _ _ Hq) in Hs.
      apply IH in Hs; [assumption|].
      apply add_not_below; [assumption|].
      apply mul_not_below; [apply Hit|].
      apply (float_of_int_not_below (qty it)); [|assumption].
      pose proof (item_qty _ Hit). lia.
    + simpl in Hs. rewrite Hq in Hs. discriminate.
Qed.

(** The subtotal of validated items is not below zero. *)
Lemma subtotal_not_below (i : Invoice) (s f : float) :
  _validate (Some i) = [] -> _calculate_subtotal (items i) = Ok (s, f) ->
  (s <? 0)%float = false.
Proof.
  intros Hv Hs. apply _validate_nil in Hv.
  apply (_calculate_subtotal_from_not_below (items i) 0 0 s f);
    [apply Hv | reflexivity | exact Hs].
Qed.

End SignFacts.

(** ** The discount stays within the subtotal *)

Section DiscountBound.

Local Open Scope Z_scope.

(** The membership rates are below 2^-4, the coupon rates below 2^-2. *)
Lemma membership_rate_below (m : string) (rate : float) :
  MEMBERSHIP_DISCOUNT !! m = Some rate ->
  strictly_below_pow2 (-4) (Prim2SF rate).
Proof.
  intros H. apply elem_of_list_to_map_2 in H.
  apply elem_of_cons in H as [H|H];
    [|apply elem_of_cons in H as [H|H];
      [|apply elem_of_nil in H; contradiction]];
    inversion H; subst; vm_compute; split; (reflexivity || discriminate).
Qed.

Lemma coupon_rate_below (c : string) (rate : float) :
  _coupon_rate !! c = Some rate ->
  strictly_below_pow2 (-2) (Prim2SF rate).
Proof.
  intros H. apply elem_of_list_to_map_2 in H.
  apply elem_of_cons in H as [H|H];
    [|apply elem_of_cons in H as [H|H];
      [|apply elem_of_cons in H as [H|H];
        [|apply elem_of_nil in H; contradiction]]];
    inversion H; subst; vm_compute; split; (reflexivity || discriminate).
Qed.

Lemma SFadd_zero_below (k : Z) (x : spec_float) :
  below_pow2 k x -> below_pow2 k (SFadd prec emax (S754_zero false) x).
Proof.
  destruct x as [[|]|s| |[|] m e]; simpl; tauto.
Qed.

(** A subtotal above 3000 is at least [2 ^ 11]. *)
Lemma above_3000 (s : float) (k : Z) :
  strictly_below_pow2 k (Prim2SF s) -> (3000 <? s)%float = true -> 12 <= k.
Proof.
  rewrite FloatAxioms.ltb_spec.
  change (Prim2SF 3000) with (S754_finite false 6597069766656000 (-41)).
  pose proof (Prim2SF_valid s) as Hv.
  destruct (Prim2SF s) as [sg|sg| |[|] m e]; simpl; try tauto;
    try discriminate.
  intros [Hm _] Hlt. apply bounded_spec in Hv as [Hv _].
  pose proof (digits2_pos_bounds m) as [Hlo _]. simpl Zdigits2 in Hv.
  set (d := Z.pos (digits2_pos m)) in *.
  assert (He : -41 <= e).
  { unfold SFltb, SFcompare in Hlt.
    destruct (Z.compare_spec (-41) e); try lia; discriminate. }
  assert (Hk : 0 <= k - e).
  { destruct (Z.le_gt_cases 0 (k - e)) as [H|H]; [assumption|].
    rewrite Z.pow_neg_r in Hm by assumption. lia. }
  assert (H : 2 ^ (d - 1) < 2 ^ (k - e)) by lia.
  apply Z.pow_lt_mono_r_iff in H; lia.
Qed.

(** The discount is at most half the power of two above the subtotal. *)
Lemma discount_below (i : Invoice) (s : float) (ws : list string) (k : Z) :
  strictly_below_pow2 k (Prim2SF s) -> k <= 1024 ->
  below_pow2 (k - 1) (Prim2SF (_calculate_discount i s ws).1).
Proof.
  intros Hs Hk. rewrite _calculate_discount_amount.
  assert (H1 : below_pow2 (k - 4)
                 (Prim2SF (Discount.plus 0%float
                             (Discount.membership_part (membership i) s)))).
  { unfold Discount.membership_part.
    destruct (MEMBERSHIP_DISCOUNT !! membership i) as [rate|] eqn:Hm.
    - simpl. rewrite FloatAxioms.add_spec, FloatAxioms.mul_spec, Prim2SF_zero.
      apply SFadd_zero_below.
      apply (SFmul_below _ _ k (-4));
        [assumption | now apply (membership_rate_below (membership i))
        | lia | lia].
    - destruct (3000 <? s)%float eqn:H3; [|exact I].
      apply (above_3000 s k Hs) in H3.
      apply (below_pow2_mono 5); [lia|].
      vm_compute. split; [discriminate | discriminate]. }
  unfold Discount.coupon_part.
  destruct (coupon i) as [c|];
    [|simpl; apply (below_pow2_mono (k - 4)); [lia | exact H1]].
  destruct (Py.truthy c);
    [|simpl; apply (below_pow2_mono (k - 4)); [lia | exact H1]].
  destruct (_coupon_rate !! Py.strip c) as [rate|] eqn:Hc;
    [|simpl; apply (below_pow2_mono (k - 4)); [lia | exact H1]].
  simpl. rewrite FloatAxioms.add_spec, FloatAxioms.mul_spec.
  apply (SFadd_below _ _ (k - 4) (k - 2)); [exact H1| |lia|lia|lia].
  replace (k - 2) with (k + -2) by lia.
  apply SFmul_below;
    [assumption | now apply (coupon_rate_below (Py.strip c)) | lia | lia].
Qed.

End DiscountBound.

(** The discount never exceeds a subtotal that is not below zero. *)
Lemma discount_not_above (i : Invoice) (s : float) (ws : list string) :
  (s <? 0)%float = false ->
  (s <? (_calculate_discount i s ws).1)%float = false.
Proof.
  intros Hs.
  pose proof (discount_below i s ws) as Hb.
  pose proof (Prim2SF_valid (_calculate_discount i s ws).1) as Hd.
  pose proof (Prim2SF_valid s) as Hv.
  rewrite FloatAxioms.ltb_spec, Prim2SF_zero in Hs.
  rewrite FloatAxioms.ltb_spec.
  destruct (Prim2SF s) as [sg|sg| |sg m e] eqn:HS.
  - apply (compare_zero_below sg _ (-1076 - 1)%Z);
      [assumption | apply Hb; [exact I | lia] | lia].
  - destruct sg; [discriminate|].
    destruct (Prim2SF (_calculate_discount i s ws).1) as [?|[|]| |[|] ? ?];
      reflexivity.
  - reflexivity.
  - destruct sg; [discriminate|].
    apply compare_below; [assumption..|].
    apply Hb; [now apply valid_strictly_below|].
    apply bounded_spec in Hv as [Hv He].
    pose proof (Zdigits2 (Z.pos m)). lia.
Qed.

(** For a validated invoice, the discount never exceeds the subtotal. *)
Lemma discount_within_subtotal (i : Invoice) (s f : float) :
  _validate (Some i) = [] -> _calculate_subtotal (items i) = Ok (s, f) ->
  (s <? (_calculate_discount i s []).1)%float = false.
Proof.
  intros Hv Hs. apply discount_not_above.
  exact (subtotal_not_below i s f Hv Hs).
Qed.

(** ** The sign of the tax *)

Section TaxSign.

Local Open Scope Z_scope.

Lemma shr_fexp_nonneg (m e : Z) :
  0 <= m -> 0 <= shr_m (shr_fexp prec emax m e loc_Exact).1.
Proof.
  intros Hm. unfold shr_fexp.
  set (n := fexp prec emax (Zdigits2 m + e) - e).
  destruct (Z.le_gt_cases n 0) as [Hn|Hn].
  - now rewrite shr_stay by assumption.
  - destruct (shr_exact m e n Hm Hn) as (y & Hy & Hy' & _).
    rewrite Hy. simpl. rewrite Hy'. apply Z.div_pos; lia.
Qed.

(** Rounding a positive number gives a zero, a positive number or
    infinity. *)
Lemma binary_round_aux_positive (M : positive) (E : Z) :
  match binary_round_aux prec emax false (Z.pos M) E loc_Exact with
  | S754_nan => False
  | S754_zero s | S754_infinity s | S754_finite s _ _ => s = false
  end.
Proof.
  unfold binary_round_aux.
  pose proof (shr_fexp_nonneg (Z.pos M) E ltac:(lia)) as H1.
  destruct (shr_fexp prec emax (Z.pos M) E loc_Exact) as [y e'].
  simpl in H1. pose proof (round_nearest_even_bounds y) as Hb.
  pose proof (shr_fexp_nonneg
                (round_nearest_even (shr_m y) (loc_of_shr_record y)) e'
                ltac:(lia)) as H2.
  destruct (shr_fexp prec emax _ e' loc_Exact) as [y' e''].
  simpl in H2. destruct (shr_m y') as [|p|p]; [reflexivity| |lia].
  destruct (e'' <=? emax - prec); reflexivity.
Qed.

Lemma binary_round_aux_opp (m e : Z) (l : location) :
  binary_round_aux prec emax true m e l
  = SFopp (binary_round_aux prec emax false m e l).
Proof.
  unfold binary_round_aux.
  destruct (shr_fexp prec emax m e l) as [y e'].
  destruct (shr_fexp prec emax _ e' loc_Exact) as [y' e''].
  destruct (shr_m y'); [reflexivity| |reflexivity].
  destruct (e'' <=? emax - prec); reflexivity.
Qed.

(** A negative number times a positive finite one is negative, or the
    negative zero. *)
Lemma SFmul_negative (x : spec_float) (my : positive) (ey : Z) :
  SFltb x (S754_zero false) = true ->
  SFltb (SFmul prec emax x (S754_finite false my ey)) (S754_zero false) = true
  \/ SFmul prec emax x (S754_finite false my ey) = S754_zero true.
Proof.
  destruct x as [s|s| |s mx ex]; try destruct s; try discriminate; intros _.
  - now left.
  - cbn [SFmul xorb]. rewrite binary_round_aux_opp.
    pose proof (binary_round_aux_positive (mx * my) (ex + ey)) as H.
    change (Z.pos (mx * my)) with (Z.pos mx * Z.pos my) in H.
    destruct (binary_round_aux prec emax false _ _ loc_Exact)
      as [s|s| |s m e]; try contradiction; subst s; simpl; auto.
Qed.

Lemma tax_rate_positive (c : string) :
  exists (m : positive) (e : Z),
    Prim2SF (default (TAX_RATE !!! "OTHER") (TAX_RATE !! c))
    = S754_finite false m e.
Proof.
  destruct (TAX_RATE !! c) as [rate|] eqn:H; simpl.
  - apply elem_of_list_to_map_2 in H.
    apply elem_of_cons in H as [H|H];
      [|apply elem_of_cons in H as [H|H];
        [|apply elem_of_cons in H as [H|H];
          [|apply elem_of_cons in H as [H|H];
            [|apply elem_of_nil in H; contradiction]]]];
      inversion H; subst; eexists _, _; vm_compute; reflexivity.
  - eexists _, _. vm_compute. reflexivity.
Qed.

(** The tax of a negative amount is negative, or the negative zero of a
    product that underflows. *)
Lemma _calculate_tax_negative (c : string) (amount : float) :
  (amount <? 0)%float = true ->
  (_calculate_tax c amount <? 0)%float = true
  \/ _calculate_tax c amount = (-0)%float.
Proof.
  unfold _calculate_tax. destruct (tax_rate_positive c) as (m & e & Hr).
  rewrite !FloatAxioms.ltb_spec, FloatAxioms.mul_spec, Hr, Prim2SF_zero.
  intros Ha.
  destruct (SFmul_negative _ m e Ha) as [H|H]; [now left | right].
  apply Prim2SF_inj. rewrite FloatAxioms.mul_spec, Hr. unfold SF64mul.
  now rewrite H.
Qed.

End TaxSign.

(** ** The scenarios of the specification, run *)

Section Scenarios.

Example scenario_A_total :
  compute_total (Some Scenario.A) = Ok (535%float, []).
Proof. vm_compute. reflexivity. Qed.

Example scenario_B_total :
  compute_total (Some Scenario.B) = Ok (284%float, [])
  /\ _calculate_subtotal (items Scenario.B) = Ok (200%float, 10%float)
  /\ _calculate_shipping "TH" 200 = 60%float.
Proof. repeat split; vm_compute; reflexivity. Qed.

Example scenario_D_total :
  compute_total (Some Scenario.D) = Ok (1050%float, ["Unknown coupon"]).
Proof. vm_compute. reflexivity. Qed.

Example scenario_E_fails :
  compute_total (Some Scenario.E) = Raise (ValueError "Invalid qty for B1").
Proof. vm_compute. reflexivity. Qed.

Example missing_invoice_fails :
  compute_total None = Raise (ValueError "Invoice is missing").
Proof. vm_compute. reflexivity. Qed.

End Scenarios.

(** * The claims *)

(** ** The total *)

(** C1, amended.  For every invoice that passes validation and whose
    quantities all convert to floats (as every quantity below 2^1023 does,
    see [convertible_small]), [compute_total] returns
    total = max(subtotal + shipping + fragile_fee + tax - discount, 0.0),
    where max is Python's.  The total is never below zero, and it is >= 0
    unless it is NaN. *)
Theorem compute_total_clamped (i : Invoice) :
  _validate (Some i) = [] ->
  Forall (fun it => Agg.convertible (qty it)) (items i) ->
  exists subtotal fragile_fee total warnings,
    _calculate_subtotal (items i) = Ok (subtotal, fragile_fee)
    /\ compute_total (Some i) = Ok (total, warnings)
    /\ total
       = Py.max
           (subtotal + _calculate_shipping (country i) subtotal + fragile_fee
            + _calculate_tax (country i)
                (subtotal - (_calculate_discount i subtotal []).1)
            - (_calculate_discount i subtotal []).1)%float
           0%float
    /\ (total <? 0)%float = false
    /\ (is_nan total = false -> (0 <=? total)%float = true).
Proof.
  intros Hv Hq. apply aggregator_returns in Hq.
  eexists _, _, _, _. split; [exact Hq|].
  split; [exact (compute_total_valid _ _ _ Hv Hq)|].
  split; [reflexivity|].
  split; [apply max_zero_not_below|].
  apply not_below_zero_ge, max_zero_not_below.
Qed.

Lemma compute_total_clamped_witness :
  exists subtotal fragile_fee total warnings,
    _calculate_subtotal (items Scenario.B) = Ok (subtotal, fragile_fee)
    /\ compute_total (Some Scenario.B) = Ok (total, warnings)
    /\ total
       = Py.max
           (subtotal + _calculate_shipping (country Scenario.B) subtotal
            + fragile_fee
            + _calculate_tax (country Scenario.B)
                (subtotal - (_calculate_discount Scenario.B subtotal []).1)
            - (_calculate_discount Scenario.B subtotal []).1)%float
           0%float
    /\ (total <? 0)%float = false
    /\ (is_nan total = false -> (0 <=? total)%float = true).
Proof.
  apply (compute_total_clamped Scenario.B).
  - vm_compute. reflexivity.
  - repeat constructor. eexists. vm_compute. reflexivity.
Defined.

(** The claim C1 as it stands fails: the invoice [Scenario.overflowing]
    passes validation and its total is NaN, which is not >= 0. *)
Lemma total_not_at_least_zero :
  _validate (Some Scenario.overflowing) = []
  /\ compute_total (Some Scenario.overflowing) = Ok (nan, [])
  /\ (0 <=? nan)%float = false.
Proof.
  repeat split; vm_compute; reflexivity.
Qed.

(** ** Validation failures *)

(** C2.  [compute_total] fails with a validation error exactly when the
    validator's problem list is not empty; the message is then every problem
    joined by "; " in detection order.  The validator collects every problem:
    a missing invoice is the single problem "Invoice is missing", otherwise
    the list holds the problems of the identifiers, of an empty item list and
    of every item.  Such a failure carries neither a total nor warnings.  An
    invoice without items fails with a message that contains
    "Invoice must contain items". *)
Theorem validation_failure (inv : option Invoice) :
  ((exists msg, compute_total inv = Raise (ValueError msg))
   <-> _validate inv <> [])
  /\ (_validate inv <> [] ->
      compute_total inv = Raise (ValueError (Py.join "; " (_validate inv))))
  /\ _validate inv = Spec.problems inv
  /\ _validate None = ["Invoice is missing"]
  /\ (forall i, inv = Some i -> items i = [] ->
      exists msg, compute_total inv = Raise (ValueError msg)
                  /\ Py.contains msg "Invoice must contain items").
Proof.
  split; [|split; [|split; [|split]]].
  - split.
    + intros [msg Hmsg] Hv. now apply (compute_total_not_ValueError inv msg).
    + intros Hv. eexists. now apply compute_total_invalid.
  - apply compute_total_invalid.
  - apply _validate_collects.
  - reflexivity.
  - intros i -> Hitems.
    assert (Hin : In "Invoice must contain items" (_validate (Some i))).
    { rewrite _validate_collects. unfold Spec.problems, Spec.invoice_problems.
      rewrite Hitems. apply in_or_app. right. apply in_or_app. right.
      apply in_or_app. left. now left. }
    exists (Py.join "; " (_validate (Some i))). split.
    + apply compute_total_invalid. intros Hnil. now rewrite Hnil in Hin.
    + now apply join_contains.
Qed.

(** ** Shipping *)

(** C3.  For every country and subtotal, the shipping fee is the fee of the
    first (threshold, fee) pair, in the stored order of the list configured
    for the country (the list of "OTHER" when the country is not in the
    table), whose threshold strictly exceeds the subtotal; without such a
    pair, and so for an empty list, it is [0.0]. *)
Theorem shipping_first_applicable (country : string) (subtotal : float) :
  let rules := Shipping.configured_rules country in
  (SHIPPING_RULES !! country = Some rules
   \/ SHIPPING_RULES !! country = None
      /\ SHIPPING_RULES !! "OTHER" = Some rules)
  /\ _calculate_shipping country subtotal = Shipping.first_fee rules subtotal
  /\ ((exists pre limit fee post,
         rules = pre ++ (limit, fee) :: post
         /\ Forall (fun r => (subtotal <? r.1)%float = false) pre
         /\ (subtotal <? limit)%float = true
         /\ _calculate_shipping country subtotal = fee)
      \/ (Forall (fun r => (subtotal <? r.1)%float = false) rules
          /\ _calculate_shipping country subtotal = 0%float)).
Proof.
  intros rules.
  assert (Hfee : _calculate_shipping country subtotal
                 = Shipping.first_fee rules subtotal).
  { unfold _calculate_shipping. rewrite configured_rules_default.
    apply _calculate_shipping_scan_find. }
  split; [|split; [exact Hfee|]].
  - subst rules. unfold Shipping.configured_rules.
    destruct (SHIPPING_RULES !! country); [left | right]; split; reflexivity.
  - rewrite Hfee. unfold Shipping.first_fee.
    pose proof (find_first (Shipping.applies subtotal) rules) as H.
    destruct (List.find (Shipping.applies subtotal) rules) as [[limit fee]|].
    + left. destruct H as (pre & post & Hl & Hpre & Hx).
      exists pre, limit, fee, post. repeat split; assumption.
    + right. split; [exact H | reflexivity].
Qed.

(** ** Discounts *)

(** C4, amended.  The discount is the sum of two independent contributions,
    and nothing caps the sum: first the one of the membership, subtotal * rate
    for a recognized tier and otherwise the flat 20 exactly when
    subtotal > 3000 (the tier is looked at first, the flat discount only
    without a tier); then the one of the coupon, subtotal * rate when a coupon
    is present and its trimmed code is recognized.  It is the amount
    [compute_total] subtracts for a valid invoice.  For a valid invoice the
    discount does not exceed the subtotal. *)
Theorem discount_stacks (i : Invoice) (subtotal : float)
    (warnings : list string) :
  (_calculate_discount i subtotal warnings).1
  = Discount.plus
      (Discount.plus 0%float
         (Discount.membership_part (membership i) subtotal))
      (Discount.coupon_part (coupon i) subtotal)
  /\ (forall rate, MEMBERSHIP_DISCOUNT !! membership i = Some rate ->
      Discount.membership_part (membership i) subtotal
      = Some (subtotal * rate)%float)
  /\ (MEMBERSHIP_DISCOUNT !! membership i = None ->
      Discount.membership_part (membership i) subtotal
      = if (3000 <? subtotal)%float then Some 20%float else None)
  /\ (forall c, coupon i = Some c -> c <> "" ->
      Discount.coupon_part (coupon i) subtotal
      = match _coupon_rate !! Py.strip c with
        | Some rate => Some (subtotal * rate)%float
        | None => None
        end)
  /\ (coupon i = None \/ coupon i = Some "" ->
      Discount.coupon_part (coupon i) subtotal = None)
  /\ (forall fragile_fee,
      _validate (Some i) = [] ->
      _calculate_subtotal (items i) = Ok (subtotal, fragile_fee) ->
      exists total ws,
        compute_total (Some i) = Ok (total, ws)
        /\ total
           = Py.max
               (subtotal + Run.shipping i subtotal + fragile_fee
                + Run.tax i subtotal
                - (_calculate_discount i subtotal warnings).1)%float
               0%float)
  /\ (forall fragile_fee,
      _validate (Some i) = [] ->
      _calculate_subtotal (items i) = Ok (subtotal, fragile_fee) ->
      (subtotal <? (_calculate_discount i subtotal warnings).1)%float
      = false).
Proof.
  split; [apply _calculate_discount_amount|].
  split; [intros rate H; unfold Discount.membership_part; now rewrite H|].
  split; [intros H; unfold Discount.membership_part; now rewrite H|].
  split.
  { intros c Hc Hne. rewrite Hc. simpl.
    apply truthy_nonempty in Hne. now rewrite Hne. }
  split; [intros [H|H]; now rewrite H|].
  split.
  - intros fragile_fee Hv Hs. eexists _, _. split.
    + exact (compute_total_valid i subtotal fragile_fee Hv Hs).
    + unfold Run.total, Run.discount.
      now rewrite !_calculate_discount_amount.
  - intros fragile_fee Hv Hs. apply discount_not_above.
    exact (subtotal_not_below i subtotal fragile_fee Hv Hs).
Qed.

(** The claim C4 as it stands fails in its last sentence: no valid invoice
    gets a discount that exceeds its subtotal.  The configured rates add up
    to less than one, and the flat 20 comes with a subtotal above 3000. *)
Lemma no_discount_above_subtotal :
  (exists i subtotal fragile_fee,
     _validate (Some i) = []
     /\ _calculate_subtotal (items i) = Ok (subtotal, fragile_fee)
     /\ (subtotal <? (_calculate_discount i subtotal []).1)%float = true)
  <-> False.
Proof.
  split; [|contradiction].
  intros (i & subtotal & fragile_fee & Hv & Hs & Hd).
  rewrite (discount_within_subtotal i subtotal fragile_fee Hv Hs) in Hd.
  discriminate.
Qed.

(** ** The unknown coupon *)

(** C5, amended.  For every invoice that passes validation, whose quantities
    all convert to floats, and that carries a coupon whose trimmed code is
    not a recognized one, the computation does not fail: the discount
    calculator appends exactly the warning "Unknown coupon", which heads the
    returned warnings, and the coupon contributes nothing to the discount. *)
Theorem unknown_coupon_only_warns (i : Invoice) (c : string) :
  _validate (Some i) = [] ->
  Forall (fun it => Agg.convertible (qty it)) (items i) ->
  coupon i = Some c -> c <> "" -> _coupon_rate !! Py.strip c = None ->
  exists subtotal fragile_fee total warnings,
    _calculate_subtotal (items i) = Ok (subtotal, fragile_fee)
    /\ compute_total (Some i) = Ok (total, warnings)
    /\ (forall ws, (_calculate_discount i subtotal ws).2
                   = ws ++ ["Unknown coupon"])
    /\ warnings = "Unknown coupon" :: Run.upgrade_warning i subtotal
    /\ Discount.coupon_part (coupon i) subtotal = None
    /\ (_calculate_discount i subtotal []).1
       = (_calculate_discount (Discount.without_coupon i) subtotal []).1.
Proof.
  intros Hv Hq Hc Hne Hu. apply aggregator_returns in Hq.
  eexists _, _, _, _. split; [exact Hq|].
  split; [exact (compute_total_valid _ _ _ Hv Hq)|].
  split; [|split; [|split]].
  - intros ws. now rewrite (unknown_coupon_warning _ _ c ws).
  - unfold Run.coupon_warnings.
    now rewrite (unknown_coupon_warning _ _ c []).
  - rewrite Hc. simpl. apply truthy_nonempty in Hne. now rewrite Hne, Hu.
  - rewrite (unknown_coupon_warning _ _ c []) by assumption.
    now rewrite _calculate_discount_without_coupon.
Qed.

Lemma unknown_coupon_only_warns_witness :
  exists subtotal fragile_fee total warnings,
    _calculate_subtotal (items Scenario.D) = Ok (subtotal, fragile_fee)
    /\ compute_total (Some Scenario.D) = Ok (total, warnings)
    /\ (forall ws, (_calculate_discount Scenario.D subtotal ws).2
                   = ws ++ ["Unknown coupon"])
    /\ warnings = "Unknown coupon" :: Run.upgrade_warning Scenario.D subtotal
    /\ Discount.coupon_part (coupon Scenario.D) subtotal = None
    /\ (_calculate_discount Scenario.D subtotal []).1
       = (_calculate_discount (Discount.without_coupon Scenario.D)
            subtotal []).1.
Proof.
  apply (unknown_coupon_only_warns Scenario.D "BOGUS").
  - vm_compute. reflexivity.
  - repeat constructor. eexists. vm_compute. reflexivity.
  - reflexivity.
  - discriminate.
  - vm_compute. reflexivity.
Defined.

(** The claim C5 as it stands fails: [Scenario.unconvertible] passes
    validation and carries an unknown coupon, and its computation fails, with
    [OverflowError], on a quantity that no float holds. *)
Lemma unknown_coupon_may_fail :
  _validate (Some Scenario.unconvertible) = []
  /\ coupon Scenario.unconvertible = Some "BOGUS"
  /\ _coupon_rate !! Py.strip "BOGUS" = None
  /\ compute_total (Some Scenario.unconvertible) = Raise OverflowError.
Proof.
  repeat split; vm_compute; reflexivity.
Qed.

(** ** Tax *)

(** C6.  For every valid invoice with its subtotal, the tax is
    (subtotal - discount) * rate, the rate being the one configured for the
    country, or the one of "OTHER" when the country is not in the table; the
    shipping and fragile fees are no part of the amount taxed.  When the
    discount exceeds the subtotal, the tax is negative.  (With the configured
    rates the discount of a valid invoice never exceeds its subtotal; on its
    own, the tax calculator turns a negative amount into a negative tax, or
    into the negative zero of a product that underflows.) *)
Theorem tax_on_discounted_subtotal (i : Invoice)
    (subtotal fragile_fee : float) :
  _validate (Some i) = [] ->
  _calculate_subtotal (items i) = Ok (subtotal, fragile_fee) ->
  let discount := (_calculate_discount i subtotal []).1 in
  let rate := Tax.rate (country i) in
  let tax := ((subtotal - discount) * rate)%float in
  (TAX_RATE !! country i = Some rate
   \/ TAX_RATE !! country i = None /\ TAX_RATE !! "OTHER" = Some rate)
  /\ _calculate_tax (country i) (subtotal - discount) = tax
  /\ (exists warnings,
        compute_total (Some i)
        = Ok (Py.max
                (subtotal + _calculate_shipping (country i) subtotal
                 + fragile_fee + tax - discount)%float
                0%float,
              warnings))
  /\ ((subtotal <? discount)%float = true -> (tax <? 0)%float = true)
  /\ (subtotal <? discount)%float = false
  /\ (forall amount, (amount <? 0)%float = true ->
      (_calculate_tax (country i) amount <? 0)%float = true
      \/ _calculate_tax (country i) amount = (-0)%float).
Proof.
  intros Hv Hs discount rate tax.
  pose proof (discount_within_subtotal i subtotal fragile_fee Hv Hs) as Hd.
  split; [apply tax_rate_cases|].
  split; [apply _calculate_tax_rate|].
  split.
  { eexists. rewrite (compute_total_valid _ _ _ Hv Hs).
    unfold Run.total, Run.tax, Run.discount, Run.shipping.
    now rewrite _calculate_tax_rate. }
  split; [fold discount in Hd; congruence|].
  split; [exact Hd|].
  intros amount. apply _calculate_tax_negative.
Qed.

Lemma tax_on_discounted_subtotal_witness :
  let discount := (_calculate_discount Scenario.C 4000 []).1 in
  let rate := Tax.rate (country Scenario.C) in
  let tax := ((4000 - discount) * rate)%float in
  (TAX_RATE !! country Scenario.C = Some rate
   \/ TAX_RATE !! country Scenario.C = None
      /\ TAX_RATE !! "OTHER" = Some rate)
  /\ _calculate_tax (country Scenario.C) (4000 - discount) = tax
  /\ (exists warnings,
        compute_total (Some Scenario.C)
        = Ok (Py.max
                (4000 + _calculate_shipping (country Scenario.C) 4000
                 + 0 + tax - discount)%float
                0%float,
              warnings))
  /\ ((4000 <? discount)%float = true -> (tax <? 0)%float = true)
  /\ (4000 <? discount)%float = false
  /\ (forall amount, (amount <? 0)%float = true ->
      (_calculate_tax (country Scenario.C) amount <? 0)%float = true
      \/ _calculate_tax (country Scenario.C) amount = (-0)%float).
Proof.
  apply (tax_on_discounted_subtotal Scenario.C 4000 0).
  - vm_compute. reflexivity.
  - vm_compute. reflexivity.
Defined.

(** ** Scenario C *)

(** C7, amended.  For an invoice of Scenario C (a valid invoice whose items
    aggregate to the subtotal 4000 without fragile fee, country "US",
    membership "gold", coupon "WELCOME10"), [compute_total] returns the
    total 3758.3999999999996, the float just below the one that 3758.4
    denotes, with the discount 520, the shipping fee 0 and the tax
    278.40000000000003; there is no warning. *)
Theorem scenario_C_total (i : Invoice) :
  _validate (Some i) = [] ->
  _calculate_subtotal (items i) = Ok (4000, 0)%float ->
  country i = "US" -> membership i = "gold" ->
  coupon i = Some "WELCOME10" ->
  compute_total (Some i) = Ok (3758.3999999999996%float, [])
  /\ (_calculate_discount i 4000 []).1 = 520%float
  /\ _calculate_shipping (country i) 4000 = 0%float
  /\ _calculate_tax (country i) (4000 - 520) = 278.40000000000003%float
  /\ (3758.4 - 3758.3999999999996 =? 0x1p-41)%float = true
  /\ (278.40000000000003 - 278.4 =? 0x1p-44)%float = true.
Proof.
  intros Hv Hs Hcountry Hm Hc.
  rewrite (compute_total_valid _ _ _ Hv Hs).
  unfold Run.total, Run.tax, Run.discount, Run.shipping, Run.coupon_warnings,
    Run.upgrade_warning, _calculate_discount.
  rewrite Hcountry, Hm, Hc.
  repeat split; vm_compute; reflexivity.
Qed.

Lemma scenario_C_total_witness :
  compute_total (Some Scenario.C) = Ok (3758.3999999999996%float, [])
  /\ (_calculate_discount Scenario.C 4000 []).1 = 520%float
  /\ _calculate_shipping (country Scenario.C) 4000 = 0%float
  /\ _calculate_tax (country Scenario.C) (4000 - 520)
     = 278.40000000000003%float
  /\ (3758.4 - 3758.3999999999996 =? 0x1p-41)%float = true
  /\ (278.40000000000003 - 278.4 =? 0x1p-44)%float = true.
Proof.
  apply (scenario_C_total Scenario.C); vm_compute; reflexivity.
Defined.

(** The claim C7 as it stands fails: the total of Scenario C is not the
    float 3758.4, nor is its tax the float 278.4. *)
Lemma scenario_C_not_exact :
  exists total warnings,
    compute_total (Some Scenario.C) = Ok (total, warnings)
    /\ (total =? 3758.4)%float = false
    /\ (_calculate_tax "US" (4000 - 520) =? 278.4)%float = false.
Proof.
  eexists _, _. repeat split; vm_compute; reflexivity.
Qed.

(** ** The aggregator *)

(** C8, amended.  For every list of line items whose quantities all convert
    to floats, the aggregator returns as subtotal the sum, from [0.0] and in
    the order of the list, of the floats unit_price * qty, and as fragile fee
    the like sum of 5.0 * qty over the fragile items; a quantity that does
    not convert raises [OverflowError].  The two orders of a list of at most
    two items give the same results; from three items on, the order of the
    items can change them. *)
Theorem aggregator_sums (l : list LineItem) :
  (Forall (fun it => Agg.convertible (qty it)) l ->
   _calculate_subtotal l
   = Ok (fold_left PrimFloat.add
           (map (fun it => (unit_price it * Agg.qty_float it)%float) l)
           0%float,
         fold_left PrimFloat.add
           (map (fun it => (5 * Agg.qty_float it)%float)
              (filter (fun it => fragile it = true) l))
           0%float)
   /\ Forall (fun it => Py.float_of_int (qty it) = Ok (Agg.qty_float it)) l)
  /\ (Exists (fun it => ~ Agg.convertible (qty it)) l ->
      _calculate_subtotal l = Raise OverflowError)
  /\ (forall l', (length l <= 2)%nat -> Permutation l l' ->
      _calculate_subtotal l' = _calculate_subtotal l).
Proof.
  split; [|split].
  - intros Hl. split; [exact (aggregator_returns l Hl)|].
    eapply Forall_impl; [exact Hl|].
    intros it [q Hq]. simpl. rewrite Hq. f_equal.
    now apply float_of_int_Ok.
  - apply _calculate_subtotal_from_overflow.
  - intros l' Hlen Hperm.
    destruct l as [|a [|b [|c l]]]; simpl in Hlen; [| | |lia].
    + apply Permutation_nil in Hperm. now subst.
    + apply Permutation_length_1_inv in Hperm. now subst.
    + apply Permutation_length_2_inv in Hperm as [-> | ->];
        [reflexivity | apply _calculate_subtotal_two].
Qed.

Lemma aggregator_sums_witness :
  _calculate_subtotal (items Scenario.B) = Ok (200, 10)%float
  /\ _calculate_subtotal [Scenario.book 0.1 3 true; Scenario.book 0.7 1 false]
     = _calculate_subtotal
         [Scenario.book 0.7 1 false; Scenario.book 0.1 3 true].
Proof.
  split.
  - destruct (aggregator_sums (items Scenario.B)) as [H _].
    destruct H as [-> _].
    + repeat constructor. eexists. vm_compute. reflexivity.
    + vm_compute. reflexivity.
  - vm_compute. reflexivity.
Defined.

(** The claim C8 as it stands fails: the lists [Scenario.big_first] and
    [Scenario.big_last] hold the same three items, and their subtotals
    differ. *)
Lemma subtotal_depends_on_order :
  Permutation Scenario.big_first Scenario.big_last
  /\ _calculate_subtotal Scenario.big_first = Ok (1e16, 0)%float
  /\ _calculate_subtotal Scenario.big_last = Ok (10000000000000002, 0)%float
  /\ (1e16 =? 10000000000000002)%float = false.
Proof.
  split; [|repeat split; vm_compute; reflexivity].
  unfold Scenario.big_first, Scenario.big_last.
  eapply perm_trans; [apply perm_swap|]. apply perm_skip, perm_swap.
Qed.

(** ** The upgrade advisory *)

(** C9.  For every valid invoice with its subtotal, the warning
    "Consider membership upgrade" is appended exactly when subtotal > 10000
    and the membership is not a recognized tier; it comes last, after the
    warnings of the discount calculator, and the total is the clamped sum
    whether it is appended or not; when both warnings apply,
    "Unknown coupon" precedes "Consider membership upgrade". *)
Theorem upgrade_advisory (i : Invoice) (subtotal fragile_fee : float) :
  _validate (Some i) = [] ->
  _calculate_subtotal (items i) = Ok (subtotal, fragile_fee) ->
  exists warnings,
    compute_total (Some i)
    = Ok (Py.max
            (subtotal + _calculate_shipping (country i) subtotal + fragile_fee
             + _calculate_tax (country i)
                 (subtotal - (_calculate_discount i subtotal []).1)
             - (_calculate_discount i subtotal []).1)%float
            0%float,
          warnings)
    /\ (In "Consider membership upgrade" warnings
        <-> (10000 <? subtotal)%float = true
            /\ MEMBERSHIP_DISCOUNT !! membership i = None)
    /\ (warnings = (_calculate_discount i subtotal []).2
        \/ warnings = (_calculate_discount i subtotal []).2
                      ++ ["Consider membership upgrade"])
    /\ (In "Unknown coupon" warnings ->
        In "Consider membership upgrade" warnings ->
        warnings = ["Unknown coupon"; "Consider membership upgrade"]).
Proof.
  intros Hv Hs.
  exists (Run.coupon_warnings i subtotal ++ Run.upgrade_warning i subtotal).
  split; [exact (compute_total_valid _ _ _ Hv Hs)|].
  fold (Run.coupon_warnings i subtotal).
  rewrite upgrade_warning_cases.
  destruct (coupon_warnings_cases i subtotal) as [-> | ->];
    destruct (10000 <? subtotal)%float;
    destruct (MEMBERSHIP_DISCOUNT !! membership i) as [rate|]; simpl;
    (split; [split; [intros H; intuition discriminate
                    | intros [H1 H2]; first [discriminate | now auto]]|]);
    (split; [auto|]); intros H1 H2; intuition discriminate.
Qed.

Lemma upgrade_advisory_witness :
  exists warnings,
    compute_total (Some Scenario.both_warnings)
    = Ok (Py.max
            (20000
             + _calculate_shipping (country Scenario.both_warnings) 20000
             + 0
             + _calculate_tax (country Scenario.both_warnings)
                 (20000
                  - (_calculate_discount Scenario.both_warnings 20000 []).1)
             - (_calculate_discount Scenario.both_warnings 20000 []).1)%float
            0%float,
          warnings)
    /\ (In "Consider membership upgrade" warnings
        <-> (10000 <? 20000)%float = true
            /\ MEMBERSHIP_DISCOUNT !! membership Scenario.both_warnings = None)
    /\ (warnings = (_calculate_discount Scenario.both_warnings 20000 []).2
        \/ warnings = (_calculate_discount Scenario.both_warnings 20000 []).2
                      ++ ["Consider membership upgrade"])
    /\ (In "Unknown coupon" warnings ->
        In "Consider membership upgrade" warnings ->
        warnings = ["Unknown coupon"; "Consider membership upgrade"]).
Proof.
  apply (upgrade_advisory Scenario.both_warnings 20000 0).
  - vm_compute. reflexivity.
  - vm_compute. reflexivity.
Defined.

(** ** Empty and blank coupons *)

(** C10.  An empty coupon string is treated as no coupon: the discount
    calculator does exactly what it does without a coupon, adding nothing to
    the discount and appending no warning, and so does [compute_total].  A
    coupon made of whitespace only is a coupon with an unknown code:
    "Unknown coupon" is appended. *)
Theorem empty_coupon_is_absent (i : Invoice) (subtotal : float)
    (warnings : list string) :
  (coupon i = Some "" ->
   _calculate_discount i subtotal warnings
   = _calculate_discount (Discount.without_coupon i) subtotal warnings
   /\ Discount.coupon_part (coupon i) subtotal = None
   /\ (_calculate_discount i subtotal warnings).2 = warnings
   /\ compute_total (Some i)
      = compute_total (Some (Discount.without_coupon i)))
  /\ (forall c, coupon i = Some c -> Discount.isspace c = true ->
      (_calculate_discount i subtotal warnings).2
      = warnings ++ ["Unknown coupon"]
      /\ (_calculate_discount i subtotal warnings).1
         = (_calculate_discount (Discount.without_coupon i)
              subtotal warnings).1
      /\ (forall fragile_fee,
          _validate (Some i) = [] ->
          _calculate_subtotal (items i) = Ok (subtotal, fragile_fee) ->
          exists total ws,
            compute_total (Some i) = Ok (total, "Unknown coupon" :: ws))).
Proof.
  split.
  - intros Hc.
    assert (H : forall s ws,
               _calculate_discount i s ws
               = _calculate_discount (Discount.without_coupon i) s ws).
    { intros s ws. unfold _calculate_discount. now rewrite Hc. }
    split; [apply H|]. split; [now rewrite Hc|].
    split; [now rewrite H, _calculate_discount_without_coupon|].
    unfold compute_total, _validate, _calculate_tax, _calculate_shipping.
    simpl. destruct (fold_left _ _ _); [|reflexivity].
    destruct (_calculate_subtotal (items i)) as [[s f]|e]; [|reflexivity].
    simpl. now rewrite H.
  - intros c Hc Hsp.
    assert (Hne : c <> "").
    { intros ->. discriminate. }
    assert (Hu : _coupon_rate !! Py.strip c = None).
    { rewrite strip_isspace by assumption. apply no_empty_coupon_code. }
    split; [|split].
    + now rewrite (unknown_coupon_warning _ _ c warnings).
    + rewrite (unknown_coupon_warning _ _ c warnings) by assumption.
      now rewrite _calculate_discount_without_coupon.
    + intros fragile_fee Hv Hs. eexists _, _.
      rewrite (compute_total_valid _ _ _ Hv Hs). unfold Run.coupon_warnings.
      rewrite (unknown_coupon_warning _ _ c []) by assumption. reflexivity.
Qed.

Lemma empty_coupon_is_absent_witness :
  compute_total (Some Scenario.empty_coupon) = Ok (535%float, [])
  /\ compute_total (Some Scenario.blank_coupon)
     = Ok (535%float, ["Unknown coupon"]).
Proof.
  split.
  - destruct (empty_coupon_is_absent Scenario.empty_coupon 500 [])
      as [H _].
    destruct (H eq_refl) as (_ & _ & _ & ->). vm_compute. reflexivity.
  - vm_compute. reflexivity.
Defined.

(** * Further properties of the code

    Properties read off the source that the claims do not state. *)

(** ** Validation and outcomes *)

Section ValidationMore.

Lemma in_validate_fails (inv : option Invoice) (p : string) :
  In p (_validate inv) ->
  exists msg, compute_total inv = Raise (ValueError msg)
              /\ Py.contains msg p.
Proof.
  intros Hin. exists (Py.join "; " (_validate inv)). split.
  - apply compute_total_invalid. intros Hnil. now rewrite Hnil in Hin.
  - now apply join_contains.
Qed.

Lemma in_item_problems (i : Invoice) (it : LineItem) (p : string) :
  In it (items i) -> In p (Spec.item_problems it) ->
  In p (_validate (Some i)).
Proof.
  intros Hit Hp. rewrite _validate_collects.
  unfold Spec.problems, Spec.invoice_problems.
  do 3 (apply in_or_app; right).
  apply in_concat. exists (Spec.item_problems it). split; [|assumption].
  now apply in_map.
Qed.

Lemma all_or_some_convertible (l : list LineItem) :
  Forall (fun it => Agg.convertible (qty it)) l
  \/ Exists (fun it => ~ Agg.convertible (qty it)) l.
Proof.
  induction l as [|it l [IH|IH]].
  - left. constructor.
  - destruct (float_of_int_cases (qty it)) as [H|H].
    + left. now constructor.
    + right. apply Exists_cons_hd. intros [q Hq]. congruence.
  - right. now apply Exists_cons_tl.
Qed.

Lemma valid_category_In (c : string) :
  c ∈ VALID_CATEGORIES <-> In c ["book"; "food"; "electronics"; "other"].
Proof.
  unfold VALID_CATEGORIES. set_unfold. simpl. intuition congruence.
Qed.

Lemma compute_total_cases (inv : option Invoice) :
  (_validate inv <> []
   /\ compute_total inv = Raise (ValueError (Py.join "; " (_validate inv))))
  \/ (exists i, inv = Some i /\ _validate inv = []
                /\ Exists (fun it => ~ Agg.convertible (qty it)) (items i)
                /\ compute_total inv = Raise OverflowError)
  \/ (exists i total warnings,
        inv = Some i /\ _validate inv = []
        /\ Forall (fun it => Agg.convertible (qty it)) (items i)
        /\ compute_total inv = Ok (total, warnings)).
Proof.
  destruct (_validate inv) as [|p ps] eqn:Hv.
  - right. destruct inv as [i|]; [|discriminate].
    destruct (all_or_some_convertible (items i)) as [H|H].
    + right. apply aggregator_returns in H as Hs.
      eexists i, _, _. repeat split; [assumption|].
      exact (compute_total_valid _ _ _ Hv Hs).
    + left. exists i. repeat split; [assumption|].
      now apply compute_total_overflow.
  - left. split; [discriminate|]. rewrite <- Hv.
    apply compute_total_invalid. rewrite Hv. discriminate.
Qed.

End ValidationMore.

(** X1.  An invoice passes validation exactly when its two identifiers are
    not empty, it has at least one item, and every item has a sku that is
    not empty, a quantity above zero, a unit price that is not below zero
    and one of the four categories. *)
Theorem validation_passes_iff (i : Invoice) :
  _validate (Some i) = []
  <-> invoice_id i <> "" /\ customer_id i <> "" /\ items i <> []
      /\ Forall (fun it =>
                   sku it <> "" /\ (0 < qty it)%Z
                   /\ (unit_price it <? 0)%float = false
                   /\ In (category it) ["book"; "food"; "electronics"; "other"])
           (items i).
Proof.
  rewrite _validate_nil. split.
  - intros [H1 H2 H3 H4]. apply truthy_nonempty in H1, H2.
    repeat split; try assumption.
    eapply Forall_impl; [exact H4|]. intros it [Hs Hq Hp Hc].
    apply truthy_nonempty in Hs. repeat split; try assumption.
    now apply valid_category_In.
  - intros (H1 & H2 & H3 & H4). apply truthy_nonempty in H1, H2.
    split; try assumption.
    eapply Forall_impl; [exact H4|]. intros it (Hs & Hq & Hp & Hc).
    apply truthy_nonempty in Hs. split; try assumption.
    now apply valid_category_In.
Qed.

(** X2.  Every problem the validator finds is reported: when a problem is in
    the validator's list, [compute_total] raises a [ValueError] whose message
    contains it. *)
Theorem every_problem_reported (inv : option Invoice) (p : string) :
  In p (_validate inv) ->
  exists msg, compute_total inv = Raise (ValueError msg)
              /\ Py.contains msg p.
Proof. apply in_validate_fails. Qed.

Lemma every_problem_reported_witness :
  exists msg, compute_total (Some Scenario.E) = Raise (ValueError msg)
              /\ Py.contains msg "Invalid qty for B1".
Proof.
  apply (every_problem_reported (Some Scenario.E) "Invalid qty for B1").
  vm_compute. now left.
Defined.

(** X3.  Each check of a line item fails the whole computation with a
    message of its own: an item of the invoice with an empty sku, a quantity
    of zero or less, a price below zero or a category outside the valid ones
    makes [compute_total] raise a [ValueError] whose message contains
    "Item sku is missing", "Invalid qty for <sku>", "Invalid price for <sku>"
    or "Unknown category for <sku>". *)
Theorem item_checks_reported (i : Invoice) (it : LineItem) :
  In it (items i) ->
  (sku it = "" ->
   exists msg, compute_total (Some i) = Raise (ValueError msg)
               /\ Py.contains msg "Item sku is missing")
  /\ ((qty it <= 0)%Z ->
      exists msg, compute_total (Some i) = Raise (ValueError msg)
                  /\ Py.contains msg ("Invalid qty for " +:+ sku it))
  /\ ((unit_price it <? 0)%float = true ->
      exists msg, compute_total (Some i) = Raise (ValueError msg)
                  /\ Py.contains msg ("Invalid price for " +:+ sku it))
  /\ (~ In (category it) ["book"; "food"; "electronics"; "other"] ->
      exists msg, compute_total (Some i) = Raise (ValueError msg)
                  /\ Py.contains msg ("Unknown category for " +:+ sku it)).
Proof.
  intros Hit. repeat split; intros H; apply in_validate_fails;
    apply (in_item_problems i it); try assumption;
    unfold Spec.item_problems.
  - rewrite H. simpl. now left.
  - apply Z.leb_le in H. rewrite H.
    apply in_or_app. right. apply in_or_app. left. now left.
  - rewrite H. do 2 (apply in_or_app; right). apply in_or_app. left.
    now left.
  - rewrite bool_decide_eq_false_2.
    + do 3 (apply in_or_app; right). now left.
    + intros Hc. apply H. now apply valid_category_In.
Qed.

Lemma item_checks_reported_witness :
  exists msg, compute_total (Some Scenario.E) = Raise (ValueError msg)
              /\ Py.contains msg ("Invalid qty for " +:+ "B1").
Proof.
  destruct (item_checks_reported Scenario.E (Scenario.book 10 0 false))
    as (_ & H & _); [now left|].
  apply H. reflexivity.
Defined.

(** X4.  [compute_total] ends in exactly one of three ways: a [ValueError]
    when the validator finds a problem; otherwise an [OverflowError] when
    the quantity of some item converts to no float; otherwise a total with
    its warnings.  It raises nothing else. *)
Theorem compute_total_outcomes (inv : option Invoice) :
  (_validate inv <> []
   /\ compute_total inv = Raise (ValueError (Py.join "; " (_validate inv))))
  \/ (exists i, inv = Some i /\ _validate inv = []
                /\ Exists (fun it => ~ Agg.convertible (qty it)) (items i)
                /\ compute_total inv = Raise OverflowError)
  \/ (exists i total warnings,
        inv = Some i /\ _validate inv = []
        /\ Forall (fun it => Agg.convertible (qty it)) (items i)
        /\ compute_total inv = Ok (total, warnings)).
Proof. apply compute_total_cases. Qed.

(** X5.  A valid invoice whose quantities are all below 2^1023 is priced:
    [compute_total] returns a total and warnings. *)
Theorem compute_total_returns (i : Invoice) :
  _validate (Some i) = [] ->
  Forall (fun it => (qty it < 2 ^ 1023)%Z) (items i) ->
  exists total warnings, compute_total (Some i) = Ok (total, warnings).
Proof.
  intros Hv Hq.
  assert (Hc : Forall (fun it => Agg.convertible (qty it)) (items i)).
  { apply _validate_nil in Hv as [_ _ _ Hok].
    rewrite Forall_forall in *. intros it Hit.
    apply convertible_small. pose proof (item_qty _ (Hok it Hit)).
    specialize (Hq it Hit). simpl in Hq. lia. }
  apply aggregator_returns in Hc. eexists _, _.
  apply (compute_total_valid _ _ _ Hv Hc).
Qed.

Lemma compute_total_returns_witness :
  exists total warnings,
    compute_total (Some Scenario.A) = Ok (total, warnings).
Proof.
  apply (compute_total_returns Scenario.A).
  - vm_compute. reflexivity.
  - repeat constructor.
Defined.

(** ** Fallbacks, and what the pricing reads *)

Section FallbackFacts.

(** The two country tables have the same keys. *)
Lemma country_tables_agree (c : string) :
  SHIPPING_RULES !! c = None <-> TAX_RATE !! c = None.
Proof.
  unfold SHIPPING_RULES, TAX_RATE.
  rewrite <- !not_elem_of_list_to_map. reflexivity.
Qed.

Lemma compute_total_reads (i j : Invoice) :
  _validate (Some i) = _validate (Some j) ->
  _calculate_subtotal (items i) = _calculate_subtotal (items j) ->
  (forall s, _calculate_shipping (country i) s
             = _calculate_shipping (country j) s) ->
  (forall s ws, _calculate_discount i s ws = _calculate_discount j s ws) ->
  (forall a, _calculate_tax (country i) a = _calculate_tax (country j) a) ->
  MEMBERSHIP_DISCOUNT !! membership i = MEMBERSHIP_DISCOUNT !! membership j ->
  compute_total (Some i) = compute_total (Some j).
Proof.
  intros Hv Hs Hship Hd Ht Hm. unfold compute_total.
  rewrite Hv, Hs. destruct (_validate (Some j)); [|reflexivity].
  destruct (_calculate_subtotal (items j)) as [[s f]|e]; [|reflexivity].
  unfold mbind, result_bind. rewrite Hship, Hd, Hm.
  destruct (_calculate_discount j s []) as [d ws]. now rewrite Ht.
Qed.

End FallbackFacts.

(** X6.  A country that is not in the tables is priced as "OTHER": the two
    country tables have the same keys, and [compute_total] gives the invoice
    what it gives the same invoice with the country "OTHER". *)
Theorem unknown_country_is_other (i : Invoice) :
  SHIPPING_RULES !! country i = None \/ TAX_RATE !! country i = None ->
  compute_total (Some i) = compute_total (Some (Vary.with_country i "OTHER")).
Proof.
  intros H.
  assert (Hs : SHIPPING_RULES !! country i = None).
  { destruct H as [H|H]; [assumption | now apply country_tables_agree]. }
  assert (Ht : TAX_RATE !! country i = None)
    by now apply country_tables_agree.
  apply compute_total_reads; try reflexivity.
  - intros s. unfold _calculate_shipping. simpl. now rewrite Hs.
  - intros a. unfold _calculate_tax. simpl. now rewrite Ht.
Qed.

Lemma unknown_country_is_other_witness :
  compute_total (Some (Vary.with_country Scenario.D "FR"))
  = compute_total
      (Some (Vary.with_country (Vary.with_country Scenario.D "FR") "OTHER")).
Proof.
  apply (unknown_country_is_other (Vary.with_country Scenario.D "FR")).
  left. reflexivity.
Defined.

(** X7.  A membership that is not a recognized tier is priced like any
    other that is not: the result of [compute_total] does not depend on
    which unrecognized membership the invoice carries. *)
Theorem unknown_memberships_alike (i : Invoice) (m : string) :
  MEMBERSHIP_DISCOUNT !! membership i = None ->
  MEMBERSHIP_DISCOUNT !! m = None ->
  compute_total (Some (Vary.with_membership i m)) = compute_total (Some i).
Proof.
  intros Hi Hm. apply compute_total_reads; try reflexivity.
  - intros s ws. unfold _calculate_discount. simpl. now rewrite Hi, Hm.
  - simpl. now rewrite Hi, Hm.
Qed.

Lemma unknown_memberships_alike_witness :
  compute_total (Some (Vary.with_membership Scenario.A "silver"))
  = compute_total (Some Scenario.A).
Proof.
  apply (unknown_memberships_alike Scenario.A "silver"); reflexivity.
Defined.

(** ** Padded coupons *)

Section StripMore.

Lemma lstrip_space_app (pre s : string) :
  Discount.all_space pre = true -> Py.lstrip (pre +:+ s) = Py.lstrip s.
Proof.
  induction pre as [|c pre IH]; [reflexivity|]. simpl Discount.all_space.
  intros H. apply andb_true_iff in H as [Hc Hp].
  rewrite append_cons. simpl. rewrite Hc. now apply IH.
Qed.

Lemma rstrip_all_space (s : string) :
  Discount.all_space s = true -> Py.rstrip s = "".
Proof.
  induction s as [|c s IH]; [reflexivity|]. simpl.
  intros H. apply andb_true_iff in H as [Hc Hs].
  now rewrite IH, Hc.
Qed.

Lemma rstrip_app_space (s post : string) :
  Discount.all_space post = true -> Py.rstrip (s +:+ post) = Py.rstrip s.
Proof.
  intros Hp. induction s as [|c s IH].
  - now apply rstrip_all_space.
  - rewrite append_cons. simpl. now rewrite IH.
Qed.

Lemma strip_app_space (s post : string) :
  Discount.all_space post = true -> Py.strip (s +:+ post) = Py.strip s.
Proof.
  intros Hp. unfold Py.strip. induction s as [|c s IH].
  - rewrite append_empty_l. now rewrite lstrip_all_space.
  - rewrite append_cons. simpl. destruct (Py.isspace c); [exact IH|].
    rewrite <- append_cons. now apply rstrip_app_space.
Qed.

Lemma strip_padded (pre s post : string) :
  Discount.all_space pre = true -> Discount.all_space post = true ->
  Py.strip (pre +:+ s +:+ post) = Py.strip s.
Proof.
  intros Hpre Hpost. unfold Py.strip at 1.
  rewrite lstrip_space_app by assumption.
  now apply strip_app_space.
Qed.

End StripMore.

(** X8.  Whitespace around a coupon code does not count: a coupon that is
    not empty, padded on either side with whitespace, is priced as the coupon
    itself. *)
Theorem padded_coupon_alike (i : Invoice) (pre c post : string) :
  c <> "" ->
  Discount.all_space pre = true -> Discount.all_space post = true ->
  compute_total (Some (Vary.with_coupon i (Some (pre +:+ c +:+ post))))
  = compute_total (Some (Vary.with_coupon i (Some c))).
Proof.
  intros Hc Hpre Hpost. apply compute_total_reads; try reflexivity.
  intros s ws. unfold _calculate_discount. simpl.
  rewrite strip_padded by assumption.
  apply truthy_nonempty in Hc. rewrite Hc.
  assert (Ht : Py.truthy (pre +:+ c +:+ post) = true).
  { apply truthy_nonempty. intros H.
    destruct pre; [|discriminate]. rewrite append_empty_l in H.
    destruct c; [discriminate|]. discriminate. }
  now rewrite Ht.
Qed.

Lemma padded_coupon_alike_witness :
  compute_total
    (Some (Vary.with_coupon Scenario.C (Some ("  " +:+ "WELCOME10" +:+ " "))))
  = compute_total (Some (Vary.with_coupon Scenario.C (Some "WELCOME10"))).
Proof.
  apply (padded_coupon_alike Scenario.C "  " "WELCOME10" " ");
    [discriminate | reflexivity | reflexivity].
Defined.

(** ** The aggregator and the warnings *)

Section AggregatorMore.

Lemma _calculate_subtotal_from_priced (l l' : list LineItem) (s f : float) :
  map Vary.priced l = map Vary.priced l' ->
  _calculate_subtotal_from l s f = _calculate_subtotal_from l' s f.
Proof.
  revert l' s f. induction l as [|it l IH]; intros [|it' l'] s f H;
    try discriminate; [reflexivity|].
  inversion H as [[Hp Hq Hf H']]. simpl.
  rewrite Hp, Hq, Hf.
  destruct (Py.float_of_int (qty it')) as [q|e]; [|reflexivity]. simpl.
  destruct (fragile it'); now rewrite (IH l').
Qed.

Lemma _calculate_subtotal_from_app (l1 l2 : list LineItem) (s f : float) :
  _calculate_subtotal_from (l1 ++ l2) s f
  = '(s', f') ← _calculate_subtotal_from l1 s f;
    _calculate_subtotal_from l2 s' f'.
Proof.
  revert s f. induction l1 as [|it l1 IH]; intros s f; [reflexivity|].
  destruct (Py.float_of_int (qty it)) as [q|e] eqn:Hq.
  - rewrite <- app_comm_cons.
    rewrite !(_calculate_subtotal_from_cons _ _ _ _ _ Hq). apply IH.
  - rewrite <- app_comm_cons. simpl. now rewrite Hq.
Qed.

Lemma _calculate_subtotal_from_no_fragile (l : list LineItem)
    (s f s' f' : float) :
  Forall (fun it => fragile it = false) l ->
  _calculate_subtotal_from l s f = Ok (s', f') -> f' = f.
Proof.
  intros Hl. revert s. induction Hl as [|it l Hit _ IH]; intros s H.
  - now inversion H.
  - destruct (Py.float_of_int (qty it)) as [q|e] eqn:Hq.
    + rewrite (_calculate_subtotal_from_cons _ _ _ _ _ Hq), Hit in H.
      now apply IH in H.
    + simpl in H. rewrite Hq in H. discriminate.
Qed.

Lemma _calculate_subtotal_from_amounts (l l' : list LineItem)
    (s f f1 : float) (r r' : float * float) :
  map (fun it => (unit_price it, qty it)) l
  = map (fun it => (unit_price it, qty it)) l' ->
  _calculate_subtotal_from l s f = Ok r ->
  _calculate_subtotal_from l' s f1 = Ok r' -> r.1 = r'.1.
Proof.
  revert l' s f f1. induction l as [|it l IH]; intros [|it' l'] s f f1 Hmap;
    try discriminate.
  - intros H H'. inversion H; inversion H'; reflexivity.
  - inversion Hmap as [[Hp Hq Hmap']].
    destruct (Py.float_of_int (qty it)) as [q|e] eqn:Hc.
    + rewrite (_calculate_subtotal_from_cons _ _ _ _ _ Hc).
      rewrite Hq in Hc.
      rewrite (_calculate_subtotal_from_cons _ _ _ _ _ Hc), Hp.
      now apply IH.
    + simpl. rewrite Hc. discriminate.
Qed.

End AggregatorMore.

(** X9.  The pricing reads nothing of an invoice but its country, its
    membership, its coupon and, of each item, the unit price, the quantity
    and the fragile flag: two valid invoices that agree on these get the same
    result, whatever their identifiers, skus and categories. *)
Theorem pricing_ignores_labels (i j : Invoice) :
  _validate (Some i) = [] -> _validate (Some j) = [] ->
  country i = country j -> membership i = membership j ->
  coupon i = coupon j ->
  map Vary.priced (items i) = map Vary.priced (items j) ->
  compute_total (Some i) = compute_total (Some j).
Proof.
  intros Hi Hj Hc Hm Hk Hl. apply compute_total_reads.
  - now rewrite Hi, Hj.
  - now apply _calculate_subtotal_from_priced.
  - intros s. now rewrite Hc.
  - intros s ws. unfold _calculate_discount. now rewrite Hm, Hk.
  - intros a. now rewrite Hc.
  - now rewrite Hm.
Qed.

Lemma pricing_ignores_labels_witness :
  compute_total (Some Scenario.A)
  = compute_total
      (Some (mkInvoice "X" "Y" "TH" "none" None
               [mkLineItem "Z9" "food" 500 1 false])).
Proof.
  apply (pricing_ignores_labels Scenario.A); reflexivity.
Defined.

(** X10.  The warnings [compute_total] returns are "Unknown coupon",
    "Consider membership upgrade", both in this order, or none: there are
    never more than two, and never one twice. *)
Theorem warnings_shape (inv : option Invoice) (total : float)
    (warnings : list string) :
  compute_total inv = Ok (total, warnings) ->
  In warnings
    [ []; ["Unknown coupon"]; ["Consider membership upgrade"];
      ["Unknown coupon"; "Consider membership upgrade"] ].
Proof.
  intros H. destruct (compute_total_cases inv)
    as [[_ He]|[(i & _ & _ & _ & He)|(i & t & ws & -> & Hv & Hq & He)]];
    try congruence.
  apply aggregator_returns in Hq.
  rewrite (compute_total_valid _ _ _ Hv Hq) in H. inversion H; subst.
  rewrite upgrade_warning_cases.
  destruct (coupon_warnings_cases i (Agg.subtotal (items i))) as [-> | ->];
    destruct (10000 <? Agg.subtotal (items i))%float;
    destruct (MEMBERSHIP_DISCOUNT !! membership i); simpl; tauto.
Qed.

Lemma warnings_shape_witness :
  In ["Unknown coupon"; "Consider membership upgrade"]
    [ []; ["Unknown coupon"]; ["Consider membership upgrade"];
      ["Unknown coupon"; "Consider membership upgrade"] ].
Proof.
  apply (warnings_shape (Some Scenario.both_warnings) 21978%float).
  vm_compute. reflexivity.
Defined.

(** X11.  An item added at the end of a list adds its amounts to what the
    aggregator returns for the list: unit_price * qty to the subtotal and,
    when it is fragile, 5.0 * qty to the fragile fee; an error of the list
    stays the error. *)
Theorem aggregator_one_more (l : list LineItem) (it : LineItem) :
  _calculate_subtotal (l ++ [it])
  = '(subtotal, fragile_fee) ← _calculate_subtotal l;
    q ← Py.float_of_int (qty it);
    Ok ((subtotal + unit_price it * q)%float,
        if fragile it then (fragile_fee + 5 * q)%float else fragile_fee).
Proof.
  unfold _calculate_subtotal. rewrite _calculate_subtotal_from_app.
  destruct (_calculate_subtotal_from l 0 0) as [[s f]|e]; [|reflexivity].
  simpl. destruct (Py.float_of_int (qty it)) as [q|e]; [|reflexivity].
  simpl. destruct (fragile it); reflexivity.
Qed.

(** X12.  The fragile flags matter to the fragile fee only: lists that
    agree on prices and quantities get the same subtotal, and a list without
    a fragile item gets the fragile fee [0.0]. *)
Theorem fragile_only_in_fee (l l' : list LineItem) (s f s' f' : float) :
  _calculate_subtotal l = Ok (s, f) ->
  _calculate_subtotal l' = Ok (s', f') ->
  (map (fun it => (unit_price it, qty it)) l
   = map (fun it => (unit_price it, qty it)) l' -> s = s')
  /\ (Forall (fun it => fragile it = false) l -> f = 0%float).
Proof.
  intros Hl Hl'. split.
  - intros Hmap.
    exact (_calculate_subtotal_from_amounts l l' 0 0 0 (s, f) (s', f')
             Hmap Hl Hl').
  - intros Hf.
    now apply (_calculate_subtotal_from_no_fragile l 0 0 s f).
Qed.

Lemma fragile_only_in_fee_witness :
  (map (fun it => (unit_price it, qty it)) [Scenario.book 100 2 false]
   = map (fun it => (unit_price it, qty it)) [Scenario.book 100 2 true] ->
   200%float = 200%float)
  /\ (Forall (fun it => fragile it = false) [Scenario.book 100 2 false] ->
      0%float = 0%float).
Proof.
  apply (fragile_only_in_fee [Scenario.book 100 2 false]
           [Scenario.book 100 2 true] 200 0 200 10);
    vm_compute; reflexivity.
Defined.

(** ** Signs of the amounts *)

Section SignMore.

Local Open Scope Z_scope.

Lemma _calculate_subtotal_from_fee_not_below (l : list LineItem)
    (s0 f0 s f : float) :
  Forall (fun it => 0 < qty it) l -> (f0 <? 0)%float = false ->
  _calculate_subtotal_from l s0 f0 = Ok (s, f) ->
  (f <? 0)%float = false.
Proof.
  intros Hl. revert s0 f0.
  induction Hl as [|it l Hit _ IH]; intros s0 f0 Hf0 Hs.
  - now inversion Hs; subst.
  - destruct (Py.float_of_int (qty it)) as [q|e] eqn:Hq.
    + rewrite (_calculate_subtotal_from_cons _ _ _ _ _ Hq) in Hs.
      apply IH in Hs; [assumption|].
      destruct (fragile it); [|assumption].
      apply add_not_below; [assumption|].
      apply mul_not_below; [reflexivity|].
      apply (float_of_int_not_below (qty it)); [lia | assumption].
    + simpl in Hs. rewrite Hq in Hs. discriminate.
Qed.

Lemma strictly_below_not_below (k : Z) (x : spec_float) :
  strictly_below_pow2 k x -> not_below_zero x.
Proof.
  destruct x as [s|s| |[|] m e]; simpl; try tauto; reflexivity.
Qed.

Lemma discount_not_below (i : Invoice) (s : float) (ws : list string) :
  (s <? 0)%float = false ->
  ((_calculate_discount i s ws).1 <? 0)%float = false.
Proof.
  intros Hs. rewrite _calculate_discount_amount.
  assert (H1 : (Discount.plus 0
                  (Discount.membership_part (membership i) s) <? 0)%float
               = false).
  { unfold Discount.membership_part.
    destruct (MEMBERSHIP_DISCOUNT !! membership i) as [rate|] eqn:Hm.
    - simpl. apply add_not_below; [reflexivity|].
      apply mul_not_below; [assumption|].
      rewrite FloatAxioms.ltb_spec, Prim2SF_zero.
      apply (strictly_below_not_below (-4)).
      now apply (membership_rate_below (membership i)).
    - destruct (3000 <? s)%float; reflexivity. }
  unfold Discount.coupon_part.
  destruct (coupon i) as [c|]; [|exact H1].
  destruct (Py.truthy c); [|exact H1].
  destruct (_coupon_rate !! Py.strip c) as [rate|] eqn:Hc; [|exact H1].
  simpl. apply add_not_below; [exact H1|].
  apply mul_not_below; [assumption|].
  rewrite FloatAxioms.ltb_spec, Prim2SF_zero.
  apply (strictly_below_not_below (-2)).
  now apply (coupon_rate_below (Py.strip c)).
Qed.

(** Taking from a float one that is not above it leaves a float that is not
    below zero. *)
Lemma SFsub_not_below (x y : spec_float) :
  valid_binary x = true -> valid_binary y = true ->
  not_below_zero x -> not_below_zero y -> SFltb x y = false ->
  not_below_zero (SFsub prec emax x y).
Proof.
  intros Vx Vy.
  destruct x as [sx|sx| |sx mx ex], y as [sy|sy| |sy my ey];
    try destruct sx; try destruct sy; intros Hx Hy Hlt;
    try discriminate; try reflexivity.
  apply bounded_spec in Vx as [Vx _]. apply bounded_spec in Vy as [Vy _].
  pose proof (digits2_pos_bounds mx) as [Hlx Hhx].
  pose proof (digits2_pos_bounds my) as [Hly Hhy].
  simpl Zdigits2 in *.
  set (dx := Z.pos (digits2_pos mx)) in *.
  set (dy := Z.pos (digits2_pos my)) in *.
  cbn [SFsub cond_Zopp]. set (ez := Z.min ex ey).
  pose proof (shl_align_spec mx ex ez) as [_ Ha].
  pose proof (shl_align_spec my ey ez) as [_ Hb].
  assert (Ha' : (shl_align mx ex ez).2 = ez).
  { unfold shl_align. destruct (ez - ex) eqn:He; simpl; lia. }
  assert (Hb' : (shl_align my ey ez).2 = ez).
  { unfold shl_align. destruct (ez - ey) eqn:He; simpl; lia. }
  rewrite Ha' in Ha. rewrite Hb' in Hb.
  change (fst ?p) with (p.1).
  apply binary_normalize_not_below. rewrite Ha, Hb.
  unfold SFltb, SFcompare in Hlt.
  destruct (Z.compare_spec ex ey) as [Heq|Hlt'|Hgt]; try discriminate.
  - subst ey. replace ez with ex by lia. rewrite Z.sub_diag, !Z.mul_1_r.
    rewrite Pos.compare_cont_spec in Hlt. simpl in Hlt.
    destruct (Pos.compare_spec mx my); try discriminate; lia.
  - replace ez with ey by lia. rewrite Z.sub_diag, Z.mul_1_r.
    assert (Hdx : dx = 53) by lia.
    assert (H52 : 2 ^ 52 <= Z.pos mx) by (rewrite Hdx in Hlx; exact Hlx).
    assert (H53 : Z.pos my < 2 ^ 53).
    { assert (2 ^ dy <= 2 ^ 53) by (apply Z.pow_le_mono_r; lia). lia. }
    assert (2 ^ 1 <= 2 ^ (ex - ey)) by (apply Z.pow_le_mono_r; lia).
    change (2 ^ 53) with (2 ^ 52 * 2 ^ 1) in H53. nia.
Qed.

Lemma sub_not_below (x y : float) :
  (x <? 0)%float = false -> (y <? 0)%float = false ->
  (x <? y)%float = false -> (x - y <? 0)%float = false.
Proof.
  rewrite !FloatAxioms.ltb_spec, sub_spec, Prim2SF_zero.
  apply SFsub_not_below; apply Prim2SF_valid.
Qed.

Lemma _calculate_tax_not_below (c : string) (amount : float) :
  (amount <? 0)%float = false -> (_calculate_tax c amount <? 0)%float = false.
Proof.
  intros Ha. unfold _calculate_tax. apply mul_not_below; [assumption|].
  destruct (tax_rate_positive c) as (m & e & Hr).
  now rewrite FloatAxioms.ltb_spec, Hr.
Qed.

End SignMore.

(** X13.  For the items of a valid invoice, neither the subtotal nor the
    fragile fee the aggregator returns is below zero. *)
Theorem aggregates_not_negative (i : Invoice) (subtotal fragile_fee : float) :
  _validate (Some i) = [] ->
  _calculate_subtotal (items i) = Ok (subtotal, fragile_fee) ->
  (subtotal <? 0)%float = false /\ (fragile_fee <? 0)%float = false.
Proof.
  intros Hv Hs. split; [exact (subtotal_not_below i _ _ Hv Hs)|].
  apply _validate_nil in Hv as [_ _ _ Hok].
  apply (_calculate_subtotal_from_fee_not_below (items i) 0 0
           subtotal fragile_fee); [|reflexivity|exact Hs].
  eapply Forall_impl; [exact Hok|]. intros it H. apply H.
Qed.

Lemma aggregates_not_negative_witness :
  (200 <? 0)%float = false /\ (10 <? 0)%float = false.
Proof.
  apply (aggregates_not_negative Scenario.B 200 10); vm_compute; reflexivity.
Defined.

(** X14.  For a valid invoice, the discount is not below zero and does not
    exceed the subtotal. *)
Theorem discount_between (i : Invoice) (subtotal fragile_fee : float) :
  _validate (Some i) = [] ->
  _calculate_subtotal (items i) = Ok (subtotal, fragile_fee) ->
  ((_calculate_discount i subtotal []).1 <? 0)%float = false
  /\ (subtotal <? (_calculate_discount i subtotal []).1)%float = false.
Proof.
  intros Hv Hs. pose proof (subtotal_not_below i _ _ Hv Hs) as H0.
  split; [now apply discount_not_below | now apply discount_not_above].
Qed.

Lemma discount_between_witness :
  ((_calculate_discount Scenario.C 4000 []).1 <? 0)%float = false
  /\ (4000 <? (_calculate_discount Scenario.C 4000 []).1)%float = false.
Proof.
  apply (discount_between Scenario.C 4000 0); vm_compute; reflexivity.
Defined.

(** X15.  For a valid invoice, the taxable amount subtotal - discount and
    the tax are not below zero: no valid invoice gets a negative tax. *)
Theorem tax_not_negative (i : Invoice) (subtotal fragile_fee : float) :
  _validate (Some i) = [] ->
  _calculate_subtotal (items i) = Ok (subtotal, fragile_fee) ->
  let discount := (_calculate_discount i subtotal []).1 in
  (subtotal - discount <? 0)%float = false
  /\ (_calculate_tax (country i) (subtotal - discount) <? 0)%float = false.
Proof.
  intros Hv Hs discount.
  pose proof (subtotal_not_below i _ _ Hv Hs) as H0.
  assert (H : (subtotal - discount <? 0)%float = false).
  { apply sub_not_below; [assumption| |].
    - now apply discount_not_below.
    - now apply discount_not_above. }
  split; [exact H | now apply _calculate_tax_not_below].
Qed.

Lemma tax_not_negative_witness :
  let discount := (_calculate_discount Scenario.C 4000 []).1 in
  (4000 - discount <? 0)%float = false
  /\ (_calculate_tax (country Scenario.C) (4000 - discount) <? 0)%float
     = false.
Proof.
  apply (tax_not_negative Scenario.C 4000 0); vm_compute; reflexivity.
Defined.

(** ** Lower bounds: the clamp of the total *)

Section LowerBounds.

Local Open Scope Z_scope.

(** One shift of [binary_round_aux] keeps a mantissa that is at least
    [2 ^ (j - e)] at least that, for the new exponent. *)
Lemma shift_above (m e j : Z) :
  1 <= m -> 2 ^ (j - e) <= m -> -1074 <= j ->
  1 <= shr_m (shr_fexp prec emax m e loc_Exact).1
  /\ 2 ^ (j - (shr_fexp prec emax m e loc_Exact).2)
     <= shr_m (shr_fexp prec emax m e loc_Exact).1.
Proof.
  intros Hm Hj Hj'. unfold shr_fexp. rewrite fexp_eq.
  set (n := Z.max (Zdigits2 m + e - 53) (-1074) - e).
  destruct (Z.le_gt_cases n 0) as [Hn|Hn].
  - rewrite shr_stay by assumption. simpl. lia.
  - destruct (shr_exact m e n ltac:(lia) Hn) as (y & Hy & Hy' & _).
    rewrite Hy. cbn [fst snd]. rewrite Hy'.
    assert (H2n : 0 < 2 ^ n) by (apply Z.pow_pos_nonneg; lia).
    destruct (Z.le_gt_cases (e + n) j) as [Hle|Hgt].
    + assert (H : 2 ^ (j - (e + n)) <= m / 2 ^ n).
      { apply Z.div_le_lower_bound; [assumption|].
        rewrite <- Z.pow_add_r by lia.
        now replace (n + (j - (e + n))) with (j - e) by lia. }
      assert (1 <= 2 ^ (j - (e + n)))
        by (apply (Z.pow_le_mono_r 2 0); lia).
      lia.
    + rewrite (Z.pow_neg_r 2 (j - (e + n))) by lia.
      destruct m as [|p|p]; try lia.
      pose proof (digits2_pos_bounds p) as [Hlo _].
      unfold n in *. simpl Zdigits2 in *.
      set (d := Z.pos (digits2_pos p)) in *.
      assert (H : 2 ^ 52 <= Z.pos p / 2 ^ (d - 53)).
      { apply Z.div_le_lower_bound; [apply Z.pow_pos_nonneg; lia|].
        rewrite <- Z.pow_add_r by lia.
        now replace (d - 53 + 52) with (d - 1) by lia. }
      replace (Z.max (d + e - 53) (-1074) - e) with (d - 53) by lia.
      assert (1 <= 2 ^ 52) by (apply (Z.pow_le_mono_r 2 0); lia).
      lia.
Qed.

(** Rounding a positive number that is at least [2 ^ j] gives at least
    [2 ^ j]. *)
Lemma binary_round_aux_above (M : positive) (E j : Z) :
  2 ^ (j - E) <= Z.pos M -> -1074 <= j ->
  above_pow2 j (binary_round_aux prec emax false (Z.pos M) E loc_Exact).
Proof.
  intros HM Hj. unfold binary_round_aux.
  pose proof (shift_above (Z.pos M) E j ltac:(lia) HM Hj) as [H1 H1'].
  destruct (shr_fexp prec emax (Z.pos M) E loc_Exact) as [mrs' e'].
  cbn [fst snd] in H1, H1'.
  pose proof (round_nearest_even_bounds mrs') as Hr.
  set (m1 := round_nearest_even (shr_m mrs') (loc_of_shr_record mrs')) in *.
  pose proof (shift_above m1 e' j ltac:(lia) ltac:(lia) Hj) as [H2 H2'].
  destruct (shr_fexp prec emax m1 e' loc_Exact) as [mrs'' e''].
  cbn [fst snd] in H2, H2'.
  destruct (shr_m mrs'') as [|p|p]; try lia.
  destruct (e'' <=? emax - prec); [exact H2' | exact I].
Qed.

Lemma binary_round_above (M : positive) (E j : Z) :
  2 ^ (j - E) <= Z.pos M -> -1074 <= j ->
  above_pow2 j (binary_round prec emax false M E).
Proof.
  intros HM Hj. unfold binary_round.
  pose proof (shl_align_spec M E
                (fexp prec emax (Z.pos (digits2_pos M) + E))) as [H1 H2].
  destruct (shl_align M E _) as [mz ez]. simpl in H1, H2.
  apply binary_round_aux_above; [|assumption]. rewrite H2.
  assert (H0 : 0 < 2 ^ (E - ez)) by (apply Z.pow_pos_nonneg; lia).
  destruct (Z.le_gt_cases E j) as [Hle|Hgt].
  - replace (j - ez) with ((j - E) + (E - ez)) by lia.
    rewrite Z.pow_add_r by lia.
    apply Z.mul_le_mono_nonneg_r; [lia | assumption].
  - destruct (Z.le_gt_cases ez j) as [Hle'|Hgt'].
    + assert (2 ^ (j - ez) <= 2 ^ (E - ez))
        by (apply Z.pow_le_mono_r; lia).
      nia.
    + rewrite (Z.pow_neg_r 2 (j - ez)) by lia. nia.
Qed.

(** Adding a float that is not below zero keeps a lower bound. *)
Lemma SFadd_above (x y : spec_float) (j : Z) :
  above_pow2 j x -> not_below_zero y -> -1074 <= j ->
  above_pow2 j (SFadd prec emax x y).
Proof.
  intros Hx Hy Hj.
  destruct x as [sx|[|]| |[|] mx ex], y as [sy|[|]| |[|] my ey];
    simpl in Hx; try contradiction; try discriminate; try exact I;
    try exact Hx.
  cbn [SFadd cond_Zopp]. set (ez := Z.min ex ey).
  pose proof (shl_align_spec mx ex ez) as [_ Ha].
  pose proof (shl_align_spec my ey ez) as [_ Hb].
  assert (Ha' : (shl_align mx ex ez).2 = ez).
  { unfold shl_align. destruct (ez - ex) eqn:He; simpl; lia. }
  rewrite Ha' in Ha. change (fst ?p) with (p.1).
  destruct (shl_align mx ex ez) as [ma ea], (shl_align my ey ez) as [mb eb].
  cbn [fst snd] in *.
  change (Z.pos ma + Z.pos mb) with (Z.pos (ma + mb)).
  cbn [binary_normalize]. apply binary_round_above; [|assumption].
  rewrite Pos2Z.inj_add, Ha.
  assert (H0 : 0 < 2 ^ (ex - ez)) by (apply Z.pow_pos_nonneg; lia).
  destruct (Z.le_gt_cases ex j) as [Hle|Hgt].
  - replace (j - ez) with ((j - ex) + (ex - ez)) by lia.
    rewrite Z.pow_add_r by lia.
    assert (2 ^ (j - ex) * 2 ^ (ex - ez) <= Z.pos mx * 2 ^ (ex - ez))
      by (apply Z.mul_le_mono_nonneg_r; [lia | assumption]).
    lia.
  - destruct (Z.le_gt_cases ez j) as [Hle'|Hgt'].
    + assert (2 ^ (j - ez) <= 2 ^ (ex - ez))
        by (apply Z.pow_le_mono_r; lia).
      nia.
    + rewrite (Z.pow_neg_r 2 (j - ez)) by lia. nia.
Qed.

(** A valid float that is at least [2 ^ j] is not below one that is at most
    [2 ^ j]. *)
Lemma compare_above (a d : spec_float) (j : Z) :
  valid_binary a = true -> valid_binary d = true ->
  above_pow2 j a -> below_pow2 j d -> SFltb a d = false.
Proof.
  intros Va Vd Ha Hd.
  destruct a as [sa|[|]| |[|] ma ea], d as [sd|sd| |[|] md ed];
    simpl in Ha, Hd; try contradiction; try reflexivity.
  destruct Hd as [Hd _].
  apply bounded_spec in Va as [Va _]. apply bounded_spec in Vd as [Vd _].
  pose proof (digits2_pos_bounds ma) as [_ Hha].
  pose proof (digits2_pos_bounds md) as [Hld _].
  simpl Zdigits2 in *.
  set (da := Z.pos (digits2_pos ma)) in *.
  set (dd := Z.pos (digits2_pos md)) in *.
  unfold SFltb, SFcompare.
  destruct (Z.compare_spec ea ed) as [Heq|Hlt|Hgt]; [| |reflexivity].
  - subst ed. rewrite Pos.compare_cont_spec. simpl.
    destruct (Pos.compare_spec ma md); try reflexivity. lia.
  - exfalso. assert (Hdd : dd = 53) by lia. rewrite Hdd in Hld.
    assert (H52 : 52 <= j - ed).
    { destruct (Z.le_gt_cases 52 (j - ed)) as [H|H]; [assumption|].
      destruct (Z.le_gt_cases 0 (j - ed)) as [H0|H0].
      - assert (2 ^ (j - ed) < 2 ^ 52) by (apply Z.pow_lt_mono_r; lia).
        simpl in Hld. lia.
      - rewrite Z.pow_neg_r in Hd by assumption. lia. }
    assert (2 ^ 53 <= 2 ^ (j - ea)) by (apply Z.pow_le_mono_r; lia).
    assert (2 ^ da <= 2 ^ 53) by (apply Z.pow_le_mono_r; lia).
    lia.
Qed.

Lemma above_not_below (j : Z) (x : spec_float) :
  above_pow2 j x -> not_below_zero x.
Proof.
  destruct x as [s|[|]| |[|] m e]; simpl; try tauto; reflexivity.
Qed.

(** Taking a float that is not below zero from one that is at least
    [2 ^ j], where the former is at most [2 ^ j] or no finite float reaches
    [2 ^ j]. *)
Lemma SFsub_above (a d : spec_float) (j : Z) :
  valid_binary a = true -> valid_binary d = true ->
  above_pow2 j a -> not_below_zero d -> below_pow2 j d \/ 1024 <= j ->
  not_below_zero (SFsub prec emax a d).
Proof.
  intros Va Vd Ha Hd [Hb|Hj].
  - apply SFsub_not_below;
      [assumption | assumption | now apply (above_not_below j) | assumption|].
    now apply (compare_above a d j).
  - destruct a as [sa|[|]| |[|] ma ea]; simpl in Ha; try contradiction.
    + destruct d as [sd|[|]| |[|] md ed]; try discriminate; reflexivity.
    + reflexivity.
    + exfalso. apply bounded_spec in Va as [Va Hea].
      pose proof (digits2_pos_bounds ma) as [_ Hha]. simpl Zdigits2 in *.
      set (da := Z.pos (digits2_pos ma)) in *.
      assert (2 ^ 53 <= 2 ^ (j - ea)) by (apply Z.pow_le_mono_r; lia).
      assert (2 ^ da <= 2 ^ 53) by (apply Z.pow_le_mono_r; lia).
      lia.
Qed.

Lemma SFsub_zero_not_below (x : spec_float) (s : bool) :
  not_below_zero x -> not_below_zero (SFsub prec emax x (S754_zero s)).
Proof.
  destruct x as [[|]|[|]| |[|] m e], s; intros H; try discriminate;
    reflexivity.
Qed.

(** The sum of [compute_total], taken on floats that are not below zero with
    a discount that is at most half the power of two above the subtotal. *)
Lemma total_not_below (s ship f tax d : float) :
  (s <? 0)%float = false -> (ship <? 0)%float = false ->
  (f <? 0)%float = false -> (tax <? 0)%float = false ->
  (d <? 0)%float = false ->
  (forall k, strictly_below_pow2 k (Prim2SF s) -> k <= 1024 ->
             below_pow2 (k - 1) (Prim2SF d)) ->
  (s + ship + f + tax - d <? 0)%float = false.
Proof.
  intros Hs Hship Hf Htax Hd Hb.
  set (a := (s + ship + f + tax)%float).
  assert (Habove : forall j, above_pow2 j (Prim2SF s) -> -1074 <= j ->
                             above_pow2 j (Prim2SF a)).
  { intros j Hj Hj'. unfold a. rewrite !FloatAxioms.add_spec.
    rewrite FloatAxioms.ltb_spec, Prim2SF_zero in Hship, Hf, Htax.
    repeat (apply SFadd_above; [|assumption|assumption]). exact Hj. }
  assert (Ha0 : (a <? 0)%float = false)
    by (unfold a; repeat (apply add_not_below; [|assumption]); exact Hs).
  pose proof (Prim2SF_valid s) as Vs.
  pose proof (Prim2SF_valid d) as Vd.
  pose proof (Prim2SF_valid a) as Va.
  rewrite FloatAxioms.ltb_spec, Prim2SF_zero in Hs, Hd, Ha0.
  rewrite FloatAxioms.ltb_spec, sub_spec, Prim2SF_zero.
  destruct (Prim2SF s) as [sg|[|]| |[|] m e] eqn:HS; try discriminate.
  - specialize (Hb (-1076) I ltac:(lia)).
    destruct (Prim2SF d) as [sd|sd| |[|] md ed]; simpl in Hb;
      try contradiction.
    + now apply SFsub_zero_not_below.
    + exfalso. destruct Hb as [Hb _]. rewrite Z.pow_neg_r in Hb; [lia|].
      apply bounded_spec in Vd as [Vd _]. lia.
  - apply (SFsub_above _ _ 1024); try assumption; [|right; lia].
    apply Habove; [exact I | lia].
  - apply (SFsub_above _ _ 1024); try assumption; [|right; lia].
    apply Habove; [exact I | lia].
  - pose proof (bounded_spec m e Vs) as [Hv He].
    pose proof (digits2_pos_bounds m) as [Hlo _]. simpl Zdigits2 in Hv.
    set (dm := Z.pos (digits2_pos m)) in *.
    apply (SFsub_above _ _ (dm + e - 1)); try assumption.
    + apply Habove; [|lia]. simpl.
      now replace (dm + e - 1 - e) with (dm - 1) by lia.
    + left. apply (Hb (dm + e)); [|lia].
      now apply valid_strictly_below.
Qed.

End LowerBounds.

Section ShippingSign.

Lemma _calculate_shipping_scan_cases (rules : list (float * float))
    (subtotal : float) :
  _calculate_shipping_scan rules subtotal = 0%float
  \/ exists limit,
       In (limit, _calculate_shipping_scan rules subtotal) rules
       /\ (subtotal <? limit)%float = true.
Proof.
  induction rules as [|[limit fee] rules IH]; [now left|]. simpl.
  destruct (subtotal <? limit)%float eqn:Hl.
  - right. exists limit. split; [now left | exact Hl].
  - destruct IH as [IH|(l & IH & Hlt)]; [now left|].
    right. exists l. split; [now right | exact Hlt].
Qed.

Lemma configured_rules_cases (country : string) :
  In (Shipping.configured_rules country)
     [ [(500, 60)]; [(4000, 600)]; [(100, 15); (300, 8)]; [(200, 25)] ]%float.
Proof.
  unfold Shipping.configured_rules.
  destruct (SHIPPING_RULES !! country) as [rules|] eqn:Hr.
  - apply elem_of_list_to_map_2 in Hr.
    repeat (apply elem_of_cons in Hr as [Hr|Hr];
            [inversion Hr; subst; simpl; tauto|]).
    now apply elem_of_nil in Hr.
  - simpl. tauto.
Qed.

Lemma _calculate_shipping_not_below (country : string) (subtotal : float) :
  (_calculate_shipping country subtotal <? 0)%float = false.
Proof.
  unfold _calculate_shipping. rewrite configured_rules_default.
  pose proof (configured_rules_cases country) as Hc.
  destruct (_calculate_shipping_scan_cases
              (Shipping.configured_rules country) subtotal)
    as [->|(limit & Hin & _)]; [reflexivity|].
  revert Hin. generalize (_calculate_shipping_scan
                            (Shipping.configured_rules country) subtotal).
  revert Hc. generalize (Shipping.configured_rules country).
  intros rules Hc fee Hin. simpl in Hc.
  destruct Hc as [Hc|[Hc|[Hc|[Hc|[]]]]]; subst rules; simpl in Hin;
    repeat (destruct Hin as [Hin|Hin]; [inversion Hin; reflexivity|]);
    contradiction.
Qed.

End ShippingSign.

(** X16.  For a valid invoice the sum subtotal + shipping + fragile_fee +
    tax - discount is never below zero, so the clamp at 0.0 never changes
    it: [compute_total] returns that sum itself. *)
Theorem clamp_never_applies (i : Invoice) (subtotal fragile_fee : float) :
  _validate (Some i) = [] ->
  _calculate_subtotal (items i) = Ok (subtotal, fragile_fee) ->
  (Run.total i subtotal fragile_fee <? 0)%float = false
  /\ compute_total (Some i)
     = Ok (Run.total i subtotal fragile_fee,
           Run.coupon_warnings i subtotal ++ Run.upgrade_warning i subtotal).
Proof.
  intros Hv Hs.
  assert (H : (Run.total i subtotal fragile_fee <? 0)%float = false).
  { pose proof (subtotal_not_below i _ _ Hv Hs) as H0.
    unfold Run.total, Run.tax, Run.discount, Run.shipping.
    apply total_not_below.
    - exact H0.
    - apply _calculate_shipping_not_below.
    - pose proof Hv as Hv'. apply _validate_nil in Hv' as [_ _ _ Hok].
      apply (_calculate_subtotal_from_fee_not_below (items i) 0 0
               subtotal fragile_fee); [|reflexivity|exact Hs].
      eapply Forall_impl; [exact Hok|]. intros it Hit. apply Hit.
    - apply _calculate_tax_not_below, sub_not_below;
        [assumption | now apply discount_not_below
        | now apply discount_not_above].
    - now apply discount_not_below.
    - intros k. apply discount_below. }
  split; [exact H|].
  rewrite (compute_total_valid i subtotal fragile_fee Hv Hs).
  unfold Py.max. now rewrite H.
Qed.

Lemma clamp_never_applies_witness :
  (Run.total Scenario.B 200 10 <? 0)%float = false
  /\ compute_total (Some Scenario.B)
     = Ok (Run.total Scenario.B 200 10,
           Run.coupon_warnings Scenario.B 200
           ++ Run.upgrade_warning Scenario.B 200).
Proof.
  apply (clamp_never_applies Scenario.B 200 10); vm_compute; reflexivity.
Defined.

(** ** Not-a-number prices *)

Section NanFacts.

Lemma is_nan_spec (x : float) : is_nan x = true <-> Prim2SF x = S754_nan.
Proof.
  unfold is_nan. rewrite FloatAxioms.eqb_spec.
  destruct (Prim2SF x) as [s|s| |s m e]; unfold SFeqb, SFcompare;
    rewrite ?Z.compare_refl, ?Pos.compare_cont_refl;
    try destruct s; simpl; split; intros H; (discriminate || reflexivity).
Qed.

Lemma add_nan_l (x y : float) : is_nan x = true -> is_nan (x + y) = true.
Proof.
  rewrite !is_nan_spec, FloatAxioms.add_spec. now intros ->.
Qed.

Lemma add_nan_r (x y : float) : is_nan y = true -> is_nan (x + y) = true.
Proof.
  rewrite !is_nan_spec, FloatAxioms.add_spec. intros ->.
  now destruct (Prim2SF x).
Qed.

Lemma mul_nan_l (x y : float) : is_nan x = true -> is_nan (x * y) = true.
Proof.
  rewrite !is_nan_spec, FloatAxioms.mul_spec. now intros ->.
Qed.

Lemma sub_nan_l (x y : float) : is_nan x = true -> is_nan (x - y) = true.
Proof.
  rewrite !is_nan_spec, sub_spec. now intros ->.
Qed.

Lemma max_nan (x y : float) : is_nan x = true -> Py.max x y = x.
Proof.
  rewrite is_nan_spec. intros H. unfold Py.max.
  now rewrite FloatAxioms.ltb_spec, H.
Qed.

Lemma _calculate_subtotal_from_nan (l : list LineItem) (s0 f0 s f : float) :
  is_nan s0 = true -> _calculate_subtotal_from l s0 f0 = Ok (s, f) ->
  is_nan s = true.
Proof.
  revert s0 f0. induction l as [|it l IH]; intros s0 f0 H0 H.
  - now inversion H; subst.
  - destruct (Py.float_of_int (qty it)) as [q|e] eqn:Hq.
    + rewrite (_calculate_subtotal_from_cons _ _ _ _ _ Hq) in H.
      apply IH in H; [assumption | now apply add_nan_l].
    + simpl in H. rewrite Hq in H. discriminate.
Qed.

Lemma _calculate_subtotal_from_nan_price (l : list LineItem)
    (s0 f0 s f : float) :
  Exists (fun it => is_nan (unit_price it) = true) l ->
  _calculate_subtotal_from l s0 f0 = Ok (s, f) -> is_nan s = true.
Proof.
  intros Hl. revert s0 f0.
  induction Hl as [it l Hit|it l _ IH]; intros s0 f0 H;
    (destruct (Py.float_of_int (qty it)) as [q|e] eqn:Hq;
     [rewrite (_calculate_subtotal_from_cons _ _ _ _ _ Hq) in H
     |simpl in H; rewrite Hq in H; discriminate]).
  - apply _calculate_subtotal_from_nan in H; [assumption|].
    now apply add_nan_r, mul_nan_l.
  - now apply IH in H.
Qed.

End NanFacts.

(** X17.  A price that is not a number is not rejected: whenever
    [compute_total] returns for an invoice with an item whose unit price is
    NaN, the total it returns is NaN. *)
Theorem nan_price_nan_total (i : Invoice) (total : float)
    (warnings : list string) :
  compute_total (Some i) = Ok (total, warnings) ->
  Exists (fun it => is_nan (unit_price it) = true) (items i) ->
  is_nan total = true.
Proof.
  intros H Hn.
  destruct (_validate (Some i)) as [|p ps] eqn:Hv;
    [|rewrite compute_total_invalid in H by (rewrite Hv; discriminate);
      discriminate].
  rewrite compute_total_aggregates in H by assumption.
  destruct (_calculate_subtotal (items i)) as [[s f]|e] eqn:Hs;
    [|discriminate].
  apply (_calculate_subtotal_from_nan_price _ _ _ _ _ Hn) in Hs.
  simpl in H. inversion H as [[Ht Hw]].
  assert (Hr : is_nan (Run.total i s f) = true).
  { unfold Run.total. now apply sub_nan_l; repeat apply add_nan_l. }
  now rewrite max_nan.
Qed.

Lemma nan_price_nan_total_witness : is_nan nan = true.
Proof.
  apply (nan_price_nan_total
           (mkInvoice "I1" "C1" "TH" "none" None
              [Scenario.book 100 1 false; Scenario.book nan 2 false])
           nan []).
  - reflexivity.
  - apply Exists_cons_tl, Exists_cons_hd. reflexivity.
Defined.

(** ** Shipping over subtotals *)

Section OrderFacts.

Local Open Scope Z_scope.

Lemma SFleb_ltb_trans (x y z : spec_float) :
  SFleb x y = true -> SFltb y z = true -> SFltb x z = true.
Proof.
  unfold SFleb, SFltb.
  destruct x as [[|]|[|]| |[|] mx ex], y as [[|]|[|]| |[|] my ey],
    z as [[|]|[|]| |[|] mz ez]; simpl; try discriminate; try reflexivity;
    intros H1 H2;
    destruct (Z.compare_spec ex ey), (Z.compare_spec ey ez),
      (Z.compare_spec ex ez);
    try discriminate; try reflexivity; try lia;
    subst; rewrite ?Pos.compare_cont_spec in *; simpl in *;
    destruct (Pos.compare_spec mx my), (Pos.compare_spec my mz),
      (Pos.compare_spec mx mz);
    simpl in *; try discriminate; try reflexivity; lia.
Qed.

Lemma leb_ltb_trans (x y z : float) :
  (x <=? y)%float = true -> (y <? z)%float = true -> (x <? z)%float = true.
Proof.
  rewrite FloatAxioms.leb_spec, !FloatAxioms.ltb_spec.
  apply SFleb_ltb_trans.
Qed.

End OrderFacts.

(** X18.  A larger subtotal never ships for more: for every country, when
    [subtotal <= subtotal'] the shipping fee of [subtotal] is not below the
    one of [subtotal']. *)
Theorem shipping_never_grows (country : string) (subtotal subtotal' : float) :
  (subtotal <=? subtotal')%float = true ->
  (_calculate_shipping country subtotal
   <? _calculate_shipping country subtotal')%float = false.
Proof.
  intros Hle. unfold _calculate_shipping. rewrite configured_rules_default.
  pose proof (configured_rules_cases country) as Hc.
  revert Hc. generalize (Shipping.configured_rules country).
  intros rules Hc. simpl in Hc.
  destruct Hc as [Hc|[Hc|[Hc|[Hc|[]]]]]; subst rules; simpl;
    repeat match goal with
      | |- context [(subtotal <? ?l)%float] =>
          destruct (subtotal <? l)%float eqn:?
      end;
    repeat match goal with
      | |- context [(subtotal' <? ?l)%float] =>
          let H := fresh "H" in
          destruct (subtotal' <? l)%float eqn:H;
          [try (apply (leb_ltb_trans _ _ _ Hle) in H; congruence)|]
      end;
    reflexivity.
Qed.

Lemma shipping_never_grows_witness :
  (_calculate_shipping "US" 50 <? _calculate_shipping "US" 150)%float = false.
Proof.
  apply (shipping_never_grows "US" 50 150). reflexivity.
Defined.
